(** * dnf/logging.py: the DNF logging subsystem

    A shallow embedding of [dnf/logging.py]: the severity constants, the two
    dial-to-level tables, the [only_once] decorator, the maximum-level
    filter, the multiprocess rotating file handler's [emit] loop, the
    [Logging] set-up methods and the libdnf logger callback, followed by the
    properties the specification states about them.

    Python integers are [Z]; dictionaries are [gmap]s; objects that are
    shared by reference (handlers) live in a heap indexed by position;
    exceptions are values of [exn] carried by [Raise]. *)

From Stdlib Require Import ZArith QArith Lia Ascii String.
From stdpp Require Import base gmap sets list strings.

Local Open Scope Z_scope.

(** ** Exceptions and results *)

(** The exception classes that occur in this module.  [KeyboardInterrupt]
    and [SystemExit] derive from [BaseException] only; every other class
    derives from [Exception].  [ProcessLockError] and [ThreadLockError] are
    the two [dnf.exceptions] classes named by [emit]. *)
Inductive exn : Type :=
  | AssertionError
  | AttributeError
  | KeyError
  | UnboundLocalError
  | OSError
  | ValueError
  | ProcessLockError
  | ThreadLockError
  | KeyboardInterrupt
  | SystemExit.

Definition is_Exception (e : exn) : bool :=
  match e with
  | KeyboardInterrupt | SystemExit => false
  | _ => true
  end.

(** [except (dnf.exceptions.ProcessLockError, dnf.exceptions.ThreadLockError)] *)
Definition is_lock_error (e : exn) : bool :=
  match e with
  | ProcessLockError | ThreadLockError => true
  | _ => false
  end.

Inductive Result (A : Type) : Type :=
  | Ok (a : A)
  | Raise (e : exn).
Arguments Ok {A} a.
Arguments Raise {A} e.

(** ** Severity levels (lines 37-45) *)

Module Level.
Definition NOTSET : Z := 0.
Definition SUPERCRITICAL : Z := 100.
Definition CRITICAL : Z := 50.
Definition ERROR : Z := 40.
Definition WARNING : Z := 30.
Definition INFO : Z := 20.
Definition DEBUG : Z := 10.
Definition DDEBUG : Z := 8.
Definition SUBDEBUG : Z := 6.
Definition TRACE : Z := 4.

(** The named tiers a record can carry, most verbose first. *)
Definition named : list Z :=
  [TRACE; SUBDEBUG; DDEBUG; DEBUG; INFO; WARNING; ERROR; CRITICAL].

(** [l] is the most verbose (lowest-ranked) named tier strictly below
    [bound]. *)
Definition most_verbose_below (bound l : Z) : Prop :=
  l ∈ named ∧ l < bound ∧ ∀ l', l' ∈ named → l' < bound → l ≤ l'.

(** [l] and [l'] are neighbours in the order of named tiers. *)
Definition adjacent (l l' : Z) : Prop :=
  l ∈ named ∧ l' ∈ named ∧ l ≠ l' ∧
  ∀ m, m ∈ named → ¬ (Z.min l l' < m < Z.max l l').
End Level.
Import Level.

(** ** The dial tables (lines 65-90) *)

Definition _VERBOSE_VAL_MAPPING : gmap Z Z :=
  <[6 := DEBUG]> (<[5 := DEBUG]> (<[4 := DEBUG]> (<[3 := DEBUG]>
  (<[2 := INFO]> (<[1 := INFO]> (<[0 := SUPERCRITICAL]> ∅)))))).

(** [dict.get(key, default)] *)
Definition dict_get {V} (d : gmap Z V) (k : Z) (dflt : V) : V :=
  default dflt (d !! k).

Definition _cfg_verbose_val2level (cfg_errval : Z) : Result Z :=
  if (0 <=? cfg_errval) && (cfg_errval <=? 10)
  then Ok (dict_get _VERBOSE_VAL_MAPPING cfg_errval DDEBUG)
  else Raise AssertionError.

Definition _ERR_VAL_MAPPING : gmap Z Z :=
  <[2 := ERROR]> (<[1 := CRITICAL]> (<[0 := SUPERCRITICAL]> ∅)).

Definition _cfg_err_val2level (cfg_errval : Z) : Result Z :=
  if (0 <=? cfg_errval) && (cfg_errval <=? 10)
  then Ok (dict_get _ERR_VAL_MAPPING cfg_errval WARNING)
  else Raise AssertionError.

(** ** Log records and the maximum-level filter (lines 56-63) *)

(** The Python values that reach this module as callback payload. *)
Inductive PyVal : Type :=
  | VInt (z : Z)
  | VStr (s : string).

Record LogRecord : Type := { levelno : Z; msg : PyVal }.

Record _MaxLevelFilter : Type := { max_level : Z }.

Definition filter (self : _MaxLevelFilter) (record : LogRecord) : Z :=
  if levelno record >=? max_level self then 0 else 1.

(** ** The rotating file handler's [emit] (lines 99-111)

    What the calls inside the [try] block do is decided outside this module
    (the standard library's rotating handler, the lock of [dnf.lock], the
    file system), so every attempt is run against the answers the
    environment gives to that attempt. *)

Record Attempt : Type := {
  shouldRollover : Result bool;
  lock_enter : Result unit;        (* rotate_lock.__enter__ *)
  doRollover : Result unit;
  lock_exit : Result unit;         (* rotate_lock.__exit__ *)
  FileHandler_emit : Result unit;
}.

Inductive Event : Type :=
  | Locked
  | RolledOver
  | Unlocked
  | Written (record : LogRecord)
  | Slept (seconds : Q)
  | HandledError (record : LogRecord).

(** [with self.rotate_lock: self.doRollover()] *)
Definition with_rotate_lock (a : Attempt) : list Event * Result unit :=
  match lock_enter a with
  | Raise e => ([], Raise e)
  | Ok _ =>
      match doRollover a, lock_exit a with
      | Ok _, Ok _ => ([Locked; RolledOver; Unlocked], Ok tt)
      | Ok _, Raise e' => ([Locked; RolledOver], Raise e')
      | Raise e, Ok _ => ([Locked; Unlocked], Raise e)
      | Raise _, Raise e' => ([Locked], Raise e')
      end
  end.

(** The body of the [try] statement, up to its [return]. *)
Definition try_body (a : Attempt) (record : LogRecord) : list Event * Result unit :=
  match shouldRollover a with
  | Raise e => ([], Raise e)
  | Ok b =>
      let '(ev, res) := if b then with_rotate_lock a else ([], Ok tt) in
      match res with
      | Raise e => (ev, Raise e)
      | Ok _ =>
          match FileHandler_emit a with
          | Ok _ => (ev ++ [Written record], Ok tt)
          | Raise e => (ev, Raise e)
          end
      end
  end.

(** [time.sleep(0.01)], in seconds. *)
Definition backoff : Q := 1 # 100.

Inductive Outcome : Type :=
  | Returned                 (* [emit] returned to its caller *)
  | Propagated (e : exn)     (* the exception left [emit] *)
  | Retrying.                (* the loop is still running *)

(** [while True: ...] run for at most [fuel] iterations; [k] counts the
    attempts made so far and selects the environment's answers. *)
Fixpoint emit (env : nat → Attempt) (record : LogRecord) (k fuel : nat)
  : list Event * Outcome :=
  match fuel with
  | O => ([], Retrying)
  | S fuel' =>
      let '(ev, res) := try_body (env k) record in
      match res with
      | Ok _ => (ev, Returned)
      | Raise e =>
          if is_lock_error e then
            let '(ev', out) := emit env record (S k) fuel' in
            (ev ++ Slept backoff :: ev', out)
          else if is_Exception e then
            (ev ++ [HandledError record], Returned)
          else (ev, Propagated e)
      end
  end.

(** The events of the first [n] attempts when each of them ends in the
    lock-error handler. *)
Fixpoint contended_prefix (env : nat → Attempt) (record : LogRecord) (k n : nat)
  : list Event :=
  match n with
  | O => []
  | S n' => fst (try_body (env k) record) ++ Slept backoff
              :: contended_prefix env record (S k) n'
  end.

(** The attempt ends in a lock-contention error. *)
Definition contended (a : Attempt) (record : LogRecord) : Prop :=
  ∃ e, snd (try_body a record) = Raise e ∧ is_lock_error e = true.

(** The sleeps among a run of events, in order. *)
Definition sleeps (evs : list Event) : list Q :=
  omap (λ ev, match ev with Slept s => Some s | _ => None end) evs.

Definition is_Written (ev : Event) : bool :=
  match ev with Written _ => true | _ => false end.

Definition is_HandledError (ev : Event) : bool :=
  match ev with HandledError _ => true | _ => false end.

(** What the [try] block leaves behind when it completes: the rollover
    under the lock when one was due, then the record. *)
Definition completed_attempt (due : bool) (record : LogRecord) : list Event :=
  (if due then [Locked; RolledOver; Unlocked] else []) ++ [Written record].

(** Environments to evaluate [emit] in: the lock is held by another process
    during the first [n] attempts of a record that needs a rollover; the
    disk refuses every write. *)
Definition busy_then_free (n : nat) : nat → Attempt := λ k,
  {| shouldRollover := Ok true;
     lock_enter := if (k <? n)%nat then Raise ProcessLockError else Ok tt;
     doRollover := Ok tt;
     lock_exit := Ok tt;
     FileHandler_emit := Ok tt |}.

Definition disk_full : nat → Attempt := λ _,
  {| shouldRollover := Ok false;
     lock_enter := Ok tt;
     doRollover := Ok tt;
     lock_exit := Ok tt;
     FileHandler_emit := Raise OSError |}.

(** The user interrupts the process while the handler checks the size. *)
Definition interrupted : nat → Attempt := λ _,
  {| shouldRollover := Raise KeyboardInterrupt;
     lock_enter := Ok tt;
     doRollover := Ok tt;
     lock_exit := Ok tt;
     FileHandler_emit := Ok tt |}.

Definition hello : LogRecord := {| levelno := INFO; msg := VStr "hello" |}.

(** ** The process state

    The [logging] registry, the handler objects, the one [Logging] object
    under consideration, and the part of the outside world the set-up
    touches (files, the librepo log). *)

Inductive Stream : Type := sys_stdout | sys_stderr.

Inductive TimeConverter : Type := localtime | gmtime.

Record Formatter : Type := {
  fmt : string;
  datefmt : string;
  converter : TimeConverter;
}.

Inductive HandlerKind : Type :=
  | StreamHandler (stream : Stream)
  | MultiprocessRotatingFileHandler (filename : string) (maxBytes backupCount : Z).

Record Handler : Type := {
  h_kind : HandlerKind;
  h_level : Z;
  h_filters : list _MaxLevelFilter;
  h_formatter : option Formatter;
}.

(** A logger holds references to handler objects: positions in the heap of
    handlers, or [None] where Python's [None] was attached. *)
Record Logger : Type := {
  l_level : Z;
  l_propagate : bool;
  l_handlers : list (option nat);
}.

(** The attributes of a [Logging] instance: the two console handlers and
    the names that [only_once] has rebound to [noop] on the instance. *)
Record Logging : Type := {
  stdout_handler : option nat;
  stderr_handler : option nat;
  noops : gset string;
}.

Record World : Type := {
  obj : Logging;
  root : Logger;
  loggers : gmap string Logger;
  handlers : list Handler;
  level_names : gmap Z string;
  raiseExceptions : bool;
  captureWarnings : bool;
  librepo_log : list (string * bool);
  files : gset string;
  modes : gmap string Z;
  denied : gset string;
  emitted : list (nat * LogRecord);
}.

Definition set_obj (f : Logging → Logging) (w : World) : World :=
  Build_World (f (obj w)) (root w) (loggers w) (handlers w) (level_names w)
    (raiseExceptions w) (captureWarnings w) (librepo_log w) (files w)
    (modes w) (denied w) (emitted w).
Definition set_loggers (f : gmap string Logger → gmap string Logger) (w : World) : World :=
  Build_World (obj w) (root w) (f (loggers w)) (handlers w) (level_names w)
    (raiseExceptions w) (captureWarnings w) (librepo_log w) (files w)
    (modes w) (denied w) (emitted w).
Definition set_handlers (f : list Handler → list Handler) (w : World) : World :=
  Build_World (obj w) (root w) (loggers w) (f (handlers w)) (level_names w)
    (raiseExceptions w) (captureWarnings w) (librepo_log w) (files w)
    (modes w) (denied w) (emitted w).
Definition set_level_names (f : gmap Z string → gmap Z string) (w : World) : World :=
  Build_World (obj w) (root w) (loggers w) (handlers w) (f (level_names w))
    (raiseExceptions w) (captureWarnings w) (librepo_log w) (files w)
    (modes w) (denied w) (emitted w).
Definition set_raiseExceptions (b : bool) (w : World) : World :=
  Build_World (obj w) (root w) (loggers w) (handlers w) (level_names w)
    b (captureWarnings w) (librepo_log w) (files w)
    (modes w) (denied w) (emitted w).
Definition set_captureWarnings (b : bool) (w : World) : World :=
  Build_World (obj w) (root w) (loggers w) (handlers w) (level_names w)
    (raiseExceptions w) b (librepo_log w) (files w)
    (modes w) (denied w) (emitted w).
Definition set_librepo_log (f : list (string * bool) → list (string * bool)) (w : World) : World :=
  Build_World (obj w) (root w) (loggers w) (handlers w) (level_names w)
    (raiseExceptions w) (captureWarnings w) (f (librepo_log w)) (files w)
    (modes w) (denied w) (emitted w).
Definition set_files (f : gset string → gset string) (w : World) : World :=
  Build_World (obj w) (root w) (loggers w) (handlers w) (level_names w)
    (raiseExceptions w) (captureWarnings w) (librepo_log w) (f (files w))
    (modes w) (denied w) (emitted w).
Definition set_modes (f : gmap string Z → gmap string Z) (w : World) : World :=
  Build_World (obj w) (root w) (loggers w) (handlers w) (level_names w)
    (raiseExceptions w) (captureWarnings w) (librepo_log w) (files w)
    (f (modes w)) (denied w) (emitted w).
Definition set_emitted (f : list (nat * LogRecord) → list (nat * LogRecord)) (w : World) : World :=
  Build_World (obj w) (root w) (loggers w) (handlers w) (level_names w)
    (raiseExceptions w) (captureWarnings w) (librepo_log w) (files w)
    (modes w) (denied w) (f (emitted w)).

(** ** Computations: state passing with exceptions

    A raised exception keeps the state changes made before it. *)

Definition M (A : Type) : Type := World → Result A * World.

#[global] Instance M_ret : MRet M := λ A a w, (Ok a, w).
#[global] Instance M_bind : MBind M := λ A B k c w,
  match c w with
  | (Ok a, w') => k a w'
  | (Raise e, w') => (Raise e, w')
  end.

Definition raise {A} (e : exn) : M A := λ w, (Raise e, w).
Definition get_world : M World := λ w, (Ok w, w).
Definition modify (f : World → World) : M unit := λ w, (Ok tt, f w).
Definition lift {A} (r : Result A) : M A := λ w, (r, w).

(** Reading an attribute that holds an object reference and calling a
    method on it: [None] has no such method. *)
Definition deref (r : option nat) : M nat :=
  match r with
  | Some h => mret h
  | None => raise AttributeError
  end.

(** ** [only_once] (lines 47-54) *)

Definition noop : M unit := mret tt.

(** [setattr(self, func.__name__, noop)] *)
Definition setattr_noop (name : string) : M unit :=
  modify (set_obj (λ o, Build_Logging (stdout_handler o) (stderr_handler o)
                                      ({[name]} ∪ noops o))).

Definition swan_song (name : string) (func : M unit) : M unit :=
  func ;; setattr_noop name.

Definition only_once (name : string) (func : M unit) : M unit :=
  swan_song name func.

(** Looking a method up on the instance: an entry of the instance's own
    dictionary shadows the method of the class. *)
Definition method (name : string) (class_attr : M unit) : M unit :=
  w ← get_world;
  if decide (name ∈ noops (obj w)) then noop else class_attr.

(** ** The [logging] package, as far as this module drives it

    Loggers are looked up by name and handlers by reference.  The module
    never calls [logging.disable], disables no logger and attaches no filter
    to a logger, so those switches are left out; so is the handler of last
    resort, which serves loggers without any handler. *)

Definition new_Logger : Logger :=
  {| l_level := NOTSET; l_propagate := true; l_handlers := [] |}.

(** The logger a name refers to; a name not yet registered denotes a logger
    in its initial state. *)
Definition the_logger (w : World) (name : string) : Logger :=
  default new_Logger (loggers w !! name).

Definition update_logger (name : string) (f : Logger → Logger) : M unit :=
  modify (λ w, set_loggers (insert name (f (the_logger w name))) w).

(** [logging.getLogger(name)]; the reference to a logger is its name. *)
Definition getLogger (name : string) : M string :=
  update_logger name id ;; mret name.

Definition Logger_setLevel (logger : string) (level : Z) : M unit :=
  update_logger logger (λ l, Build_Logger level (l_propagate l) (l_handlers l)).

Definition Logger_set_propagate (logger : string) (b : bool) : M unit :=
  update_logger logger (λ l, Build_Logger (l_level l) b (l_handlers l)).

(** [if not (hdlr in self.handlers): self.handlers.append(hdlr)] *)
Definition Logger_addHandler (logger : string) (hdlr : option nat) : M unit :=
  update_logger logger (λ l,
    Build_Logger (l_level l) (l_propagate l)
      (if decide (hdlr ∈ l_handlers l) then l_handlers l
       else l_handlers l ++ [hdlr])).

(** Constructing a handler allocates a new object: level [NOTSET], no
    filters, no formatter. *)
Definition new_Handler (kind : HandlerKind) : M nat :=
  w ← get_world;
  modify (set_handlers (λ hs, hs ++ [Build_Handler kind NOTSET [] None])) ;;
  mret (length (handlers w)).

Definition update_handler (h : nat) (f : Handler → Handler) : M unit :=
  modify (set_handlers (λ hs,
    match hs !! h with
    | Some hd => <[h := f hd]> hs
    | None => hs
    end)).

Definition Handler_setLevel (h : nat) (level : Z) : M unit :=
  update_handler h (λ hd,
    Build_Handler (h_kind hd) level (h_filters hd) (h_formatter hd)).

(** [addFilter] with a filter object made for the call. *)
Definition Handler_addFilter (h : nat) (f : _MaxLevelFilter) : M unit :=
  update_handler h (λ hd,
    Build_Handler (h_kind hd) (h_level hd) (h_filters hd ++ [f]) (h_formatter hd)).

Definition Handler_setFormatter (h : nat) (f : Formatter) : M unit :=
  update_handler h (λ hd,
    Build_Handler (h_kind hd) (h_level hd) (h_filters hd) (Some f)).

Definition addLevelName (level : Z) (name : string) : M unit :=
  modify (set_level_names (insert level name)).

(** The proper dotted prefixes of a logger name, longest first:
    ["a.b.c"] gives ["a.b"; "a"]. *)
Fixpoint dot_prefixes (pre cs : list ascii) : list (list ascii) :=
  match cs with
  | [] => []
  | c :: cs' =>
      (if decide (c = "."%char) then [pre] else []) ++ dot_prefixes (pre ++ [c]) cs'
  end.

Definition ancestors (name : string) : list string :=
  string_of_list_ascii <$>
    List.filter (λ p, negb (Nat.eqb (length p) 0))
                (rev (dot_prefixes [] (list_ascii_of_string name))).

(** The logger itself followed by its registered ancestors and the root
    logger: the chain [c = c.parent] walks. *)
Definition chain (w : World) (name : string) : list Logger :=
  the_logger w name :: omap (λ n, loggers w !! n) (ancestors name) ++ [root w].

(** [Logger.getEffectiveLevel]: the first level set along the chain. *)
Fixpoint first_level (c : list Logger) : Z :=
  match c with
  | [] => NOTSET
  | l :: c' => if l_level l =? 0 then first_level c' else l_level l
  end.

Definition getEffectiveLevel (w : World) (name : string) : Z :=
  first_level (chain w name).

Definition isEnabledFor (w : World) (name : string) (level : Z) : bool :=
  level >=? getEffectiveLevel w name.

(** [Filterer.filter]: every attached filter must let the record pass. *)
Definition Filterer_filter (fs : list _MaxLevelFilter) (record : LogRecord) : bool :=
  forallb (λ f, negb (filter f record =? 0)) fs.

(** The handler passes the record on to its [emit]:
    [record.levelno >= hdlr.level] in [callHandlers], then the filters in
    [Handler.handle]. *)
Definition delivers (hd : Handler) (record : LogRecord) : bool :=
  (levelno record >=? h_level hd) && Filterer_filter (h_filters hd) record.

(** One handler of the [for hdlr in c.handlers] loop; [emitted] collects the
    calls of [hdlr.emit(record)].  An entry [None] has no attribute [level];
    a reference always points at an object, so the last case is never
    reached from a state the module builds. *)
Definition call_handler (record : LogRecord) (hdlr : option nat) : M unit :=
  h ← deref hdlr;
  w ← get_world;
  match handlers w !! h with
  | Some hd =>
      if delivers hd record
      then modify (set_emitted (λ es, es ++ [(h, record)]))
      else mret tt
  | None => mret tt
  end.

Fixpoint call_each (record : LogRecord) (hs : list (option nat)) : M unit :=
  match hs with
  | [] => mret tt
  | h :: hs' => call_handler record h ;; call_each record hs'
  end.

(** [Logger.callHandlers] *)
Fixpoint callHandlers (record : LogRecord) (c : list Logger) : M unit :=
  match c with
  | [] => mret tt
  | l :: c' =>
      call_each record (l_handlers l) ;;
      if l_propagate l then callHandlers record c' else mret tt
  end.

(** [Logger.log(level, msg)] *)
Definition Logger_log (logger : string) (level : Z) (message : PyVal) : M unit :=
  w ← get_world;
  if isEnabledFor w logger level
  then callHandlers {| levelno := level; msg := message |} (chain w logger)
  else mret tt.

(** ** Files *)

(** [os.path.join(a, b)] *)
Definition os_path_join (a b : string) : string :=
  match list_ascii_of_string b with
  | "/"%char :: _ => b
  | _ =>
      match rev (list_ascii_of_string a) with
      | [] => b
      | "/"%char :: _ => a +:+ b
      | _ => a +:+ "/" +:+ b
      end
  end.

Fixpoint rstrip_slash_rev (rcs : list ascii) : list ascii :=
  match rcs with
  | "/"%char :: rcs' => rstrip_slash_rev rcs'
  | _ => rcs
  end.

Fixpoint drop_to_slash (rcs : list ascii) : list ascii :=
  match rcs with
  | [] => []
  | "/"%char :: _ => rcs
  | _ :: rcs' => drop_to_slash rcs'
  end.

(** [os.path.dirname(p)] *)
Definition os_path_dirname (p : string) : string :=
  let head := drop_to_slash (rev (list_ascii_of_string p)) in
  match rstrip_slash_rev head with
  | [] => string_of_list_ascii (rev head)
  | stripped => string_of_list_ascii (rev stripped)
  end.

Definition os_path_exists (path : string) : M bool :=
  w ← get_world; mret (bool_decide (path ∈ files w)).

(** Creating or opening [path]; the environment refuses the paths in
    [denied]. *)
Definition create (path : string) : M unit :=
  w ← get_world;
  if decide (path ∈ denied w) then raise OSError
  else modify (set_files (λ fs, {[path]} ∪ fs)).

(** Modelled from the spec: [dnf.util.ensure_dir], which is not part of the
    sources at hand; the directory is ensured to exist. *)
Definition ensure_dir (dname : string) : M unit := create dname.

(** Modelled from the spec: [dnf.util.touch], which is not part of the
    sources at hand; the file is created if it is absent. *)
Definition touch (path : string) : M unit := create path.

Definition os_chmod (path : string) (mode : Z) : M unit :=
  w ← get_world;
  if decide (path ∈ denied w) then raise OSError
  else modify (set_modes (insert path mode)).

(** The constants of [dnf.const] this module reads; their values are set
    outside it. *)
Record dnf_const : Type := {
  LOG : string;
  LOG_LIBREPO : string;
  LOG_MARKER : string;
  LOG_RPM : string;
}.

(** The members of [libdnf.utils.Logger] that serve as keys of the level
    table. *)
Record libdnf_Logger : Type := {
  Level_CRITICAL : Z;
  Level_ERROR : Z;
  Level_WARNING : Z;
  Level_NOTICE : Z;
  Level_INFO : Z;
  Level_DEBUG : Z;
  Level_TRACE : Z;
}.

(** ** File handlers and the [Logging] class (lines 114-226) *)

(** [MultiprocessRotatingFileHandler(filename, maxBytes=..., backupCount=...)]:
    the base class opens the file for appending. *)
Definition new_MultiprocessRotatingFileHandler
    (filename : string) (maxBytes backupCount : Z) : M nat :=
  create filename ;;
  new_Handler (MultiprocessRotatingFileHandler filename maxBytes backupCount).

Definition _create_filehandler (logfile : string) (log_size log_rotate : Z) : M nat :=
  present ← os_path_exists logfile;
  (if negb present then
     ensure_dir (os_path_dirname logfile) ;;
     touch logfile ;;
     os_chmod logfile 420   (* 0o644 *)
   else mret tt) ;;
  handler ← new_MultiprocessRotatingFileHandler logfile log_size log_rotate;
  let formatter :=
    {| fmt := "%(asctime)s %(levelname)s %(message)s";
       datefmt := "%Y-%m-%dT%H:%M:%SZ";
       converter := gmtime |} in
  Handler_setFormatter handler formatter ;;
  mret handler.

(** [logfile or default] *)
Definition or_default (logfile : option string) (dflt : string) : string :=
  match logfile with
  | Some s => if decide (s = "") then dflt else s
  | None => dflt
  end.

Definition Logging___init__ : Logging :=
  {| stdout_handler := None; stderr_handler := None; noops := ∅ |}.

Definition set_stdout_handler (h : nat) : M unit :=
  modify (set_obj (λ o, Build_Logging (Some h) (stderr_handler o) (noops o))).

Definition set_stderr_handler (h : nat) : M unit :=
  modify (set_obj (λ o, Build_Logging (stdout_handler o) (Some h) (noops o))).

Record Conf : Type := {
  debuglevel : Z;
  errorlevel : Z;
  logdir : string;
  log_size : Z;
  log_rotate : Z;
}.

Section Logging.
Context (const : dnf_const).

Definition _paint_mark (logger : string) : M unit :=
  Logger_log logger INFO (VStr (LOG_MARKER const)).

Definition _new_logging_levels_body : M unit :=
  addLevelName DDEBUG "DDEBUG" ;;
  addLevelName SUBDEBUG "SUBDEBUG" ;;
  addLevelName TRACE "TRACE".

Definition _new_logging_levels : M unit :=
  method "_new_logging_levels"
    (only_once "_new_logging_levels" _new_logging_levels_body).

Definition _presetup_body : M unit :=
  _new_logging_levels ;;
  logger_dnf ← getLogger "dnf";
  Logger_setLevel logger_dnf TRACE ;;
  (* setup stdout *)
  stdout ← new_Handler (StreamHandler sys_stdout);
  Handler_setLevel stdout INFO ;;
  Handler_addFilter stdout {| max_level := WARNING |} ;;
  Logger_addHandler logger_dnf (Some stdout) ;;
  set_stdout_handler stdout ;;
  (* setup stderr *)
  stderr ← new_Handler (StreamHandler sys_stderr);
  Handler_setLevel stderr WARNING ;;
  Logger_addHandler logger_dnf (Some stderr) ;;
  set_stderr_handler stderr.

Definition _presetup : M unit :=
  method "_presetup" (only_once "_presetup" _presetup_body).

Definition _setup_rpm_logger_body (logdir : string) (log_size log_rotate : Z)
    (verbosity : option Z) (logfile : option string) : M unit :=
  let verbosity := default SUBDEBUG verbosity in
  logger_rpm ← getLogger "dnf.rpm";
  Logger_set_propagate logger_rpm false ;;
  let logfile := os_path_join logdir (or_default logfile (LOG_RPM const)) in
  handler ← _create_filehandler logfile log_size log_rotate;
  Logger_addHandler logger_rpm (Some handler) ;;
  Logger_setLevel logger_rpm verbosity ;;
  _paint_mark logger_rpm.

Definition _setup_rpm_logger (logdir : string) (log_size log_rotate : Z)
    (verbosity : option Z) (logfile : option string) : M unit :=
  method "_setup_rpm_logger"
    (only_once "_setup_rpm_logger"
       (_setup_rpm_logger_body logdir log_size log_rotate verbosity logfile)).

Definition _setup_librepo_logger_body (logdir : string) (verbosity : Z)
    (logfile : option string) : M unit :=
  let logfile := os_path_join logdir (or_default logfile (LOG_LIBREPO const)) in
  (* libdnf.repo.LibrepoLog.addHandler(logfile, verbosity <= DEBUG) *)
  modify (set_librepo_log (λ hs, hs ++ [(logfile, verbosity <=? DEBUG)])).

Definition _setup_librepo_logger (logdir : string) (verbosity : Z)
    (logfile : option string) : M unit :=
  method "_setup_librepo_logger"
    (only_once "_setup_librepo_logger"
       (_setup_librepo_logger_body logdir verbosity logfile)).

Definition _setup_dnf_logger_body (logdir : string) (log_size log_rotate : Z)
    (verbosity : option Z) (logfile : option string) : M unit :=
  let verbosity := default TRACE verbosity in
  logger_dnf ← getLogger "dnf";
  Logger_setLevel logger_dnf verbosity ;;
  let logfile := os_path_join logdir (or_default logfile (LOG const)) in
  handler ← _create_filehandler logfile log_size log_rotate;
  Logger_addHandler logger_dnf (Some handler) ;;
  (* setup Python warnings *)
  modify (set_captureWarnings true) ;;
  logger_warnings ← getLogger "py.warnings";
  w ← get_world;
  Logger_addHandler logger_warnings (stderr_handler (obj w)) ;;
  Logger_addHandler logger_warnings (Some handler) ;;
  _paint_mark logger_dnf.

Definition _setup_dnf_logger (logdir : string) (log_size log_rotate : Z)
    (verbosity : option Z) (logfile : option string) : M unit :=
  method "_setup_dnf_logger"
    (only_once "_setup_dnf_logger"
       (_setup_dnf_logger_body logdir log_size log_rotate verbosity logfile)).

(** [self.stdout_handler.setLevel(level)] *)
Definition stdout_setLevel (level : Z) : M unit :=
  w ← get_world; h ← deref (stdout_handler (obj w)); Handler_setLevel h level.

Definition stderr_setLevel (level : Z) : M unit :=
  w ← get_world; h ← deref (stderr_handler (obj w)); Handler_setLevel h level.

Definition _setup_body (verbose_level error_level : Z) (logdir : string)
    (log_size log_rotate : Z) : M unit :=
  _presetup ;;
  (* temporarily turn off stdout/stderr handlers *)
  stdout_setLevel SUPERCRITICAL ;;
  stderr_setLevel SUPERCRITICAL ;;
  (* setup DNF logger *)
  _setup_dnf_logger logdir log_size log_rotate None None ;;
  logger_dnf ← getLogger "dnf";
  (* setup librepo logger *)
  _setup_librepo_logger logdir verbose_level None ;;
  (* setup RPM callbacks logger *)
  _setup_rpm_logger logdir log_size log_rotate None None ;;
  logger_rpm ← getLogger "dnf.rpm";
  w ← get_world;
  Logger_addHandler logger_rpm (stdout_handler (obj w)) ;;
  Logger_addHandler logger_rpm (stderr_handler (obj w)) ;;
  (* bring std handlers to the preferred level *)
  stdout_setLevel verbose_level ;;
  stderr_setLevel error_level ;;
  modify (set_raiseExceptions false).

Definition _setup (verbose_level error_level : Z) (logdir : string)
    (log_size log_rotate : Z) : M unit :=
  method "_setup"
    (only_once "_setup"
       (_setup_body verbose_level error_level logdir log_size log_rotate)).

Definition _setup_from_dnf_conf (conf : Conf) : M unit :=
  verbose_level_r ← lift (_cfg_verbose_val2level (debuglevel conf));
  error_level_r ← lift (_cfg_err_val2level (errorlevel conf));
  _setup verbose_level_r error_level_r (logdir conf) (log_size conf)
         (log_rotate conf).
End Logging.

(** ** The libdnf logger callback (lines 240-265) *)

Section Libdnf.
Context (libdnf : libdnf_Logger).

(** A dictionary display stores its items in the order written. *)
Definition _LIBDNF_TO_DNF_LOGLEVEL_MAPPING : gmap Z Z :=
  <[Level_TRACE libdnf := TRACE]> (
  <[Level_DEBUG libdnf := DEBUG]> (
  <[Level_INFO libdnf := INFO]> (
  <[Level_NOTICE libdnf := INFO]> (
  <[Level_WARNING libdnf := WARNING]> (
  <[Level_ERROR libdnf := ERROR]> (
  <[Level_CRITICAL libdnf := CRITICAL]> ∅)))))).

Record LibdnfLoggerCB : Type := { _logger : string }.

Definition LibdnfLoggerCB___init__ : M LibdnfLoggerCB :=
  lg ← getLogger "dnf"; mret {| _logger := lg |}.

(** Reading a local variable that no assignment has bound. *)
Definition load_local (v : option PyVal) : M PyVal :=
  match v with
  | Some x => mret x
  | None => raise UnboundLocalError
  end.

(** [_LIBDNF_TO_DNF_LOGLEVEL_MAPPING[level]] *)
Definition mapping_getitem (key : PyVal) : M Z :=
  match key with
  | VInt k =>
      match _LIBDNF_TO_DNF_LOGLEVEL_MAPPING !! k with
      | Some l => mret l
      | None => raise KeyError
      end
  | VStr _ => raise KeyError
  end.

Definition write (self : LibdnfLoggerCB) (source : Z) (args : list PyVal) : M unit :=
  let '(level, message) :=
    match args with
    | [level; message] => (Some level, Some message)
    | [_time; _pid; level; message] => (Some level, Some message)
    | _ => (None, None)
    end in
  level ← load_local level;
  dnf_level ← mapping_getitem level;
  message ← load_local message;
  Logger_log (_logger self) dnf_level message.
End Libdnf.

(** ** A process that has just imported the module *)

(** The [logging] package as the interpreter starts it: the root logger at
    [WARNING] without handlers, [raiseExceptions] set. *)
Definition fresh_interpreter : World :=
  {| obj := Logging___init__;
     root := {| l_level := WARNING; l_propagate := true; l_handlers := [] |};
     loggers := ∅;
     handlers := [];
     level_names := ∅;
     raiseExceptions := true;
     captureWarnings := false;
     librepo_log := [];
     files := ∅;
     modes := ∅;
     denied := ∅;
     emitted := [] |}.

(** The state a computation leaves, and its result. *)
Definition exec {A} (c : M A) (w : World) : World := snd (c w).
Definition result {A} (c : M A) (w : World) : Result A := fst (c w).

(** Constants and level keys to evaluate examples with. *)
Definition sample_const : dnf_const :=
  {| LOG := "dnf.log"; LOG_LIBREPO := "dnf.librepo.log";
     LOG_MARKER := "--- logging initialized ---"; LOG_RPM := "dnf.rpm.log" |}.

Definition sample_libdnf : libdnf_Logger :=
  {| Level_CRITICAL := 0; Level_ERROR := 1; Level_WARNING := 2;
     Level_NOTICE := 3; Level_INFO := 4; Level_DEBUG := 5; Level_TRACE := 6 |}.

(** The level table as the specification lists it: native level, then the
    level it is given here. *)
Definition level_table (libdnf : libdnf_Logger) : list (Z * Z) :=
  [ (Level_CRITICAL libdnf, CRITICAL);
    (Level_ERROR libdnf, ERROR);
    (Level_WARNING libdnf, WARNING);
    (Level_NOTICE libdnf, INFO);
    (Level_INFO libdnf, INFO);
    (Level_DEBUG libdnf, DEBUG);
    (Level_TRACE libdnf, TRACE) ].

(** The module's last two lines run when it is imported:
    [libdnfLoggerCB = LibdnfLoggerCB()]. *)
Definition imported : World := exec LibdnfLoggerCB___init__ fresh_interpreter.

(** A process that has imported the module and run [_setup] once. *)
Definition configured : World :=
  exec (_setup sample_const INFO WARNING "/var/log" 1000 4) imported.

(** The records a handler's [emit] has been called with. *)
Definition received (w : World) (h : nat) : list LogRecord :=
  omap (λ '(h', r), if decide (h' = h) then Some r else None) (emitted w).

(** ** Invariants of the set-up *)

(** The console handlers [_presetup] builds. *)
Definition stdout_sink (level : Z) : Handler :=
  {| h_kind := StreamHandler sys_stdout; h_level := level;
     h_filters := [{| max_level := WARNING |}]; h_formatter := None |}.

Definition stderr_sink (level : Z) : Handler :=
  {| h_kind := StreamHandler sys_stderr; h_level := level;
     h_filters := []; h_formatter := None |}.

(** Changing nothing of a handler but its level and formatter. *)
Definition same_sink (hd hd' : Handler) : Prop :=
  h_kind hd' = h_kind hd ∧ h_filters hd' = h_filters hd.

(** The two console handlers of the [Logging] object are the distinct
    objects [hout] and [herr], of the kinds and with the filters
    [_presetup] gave them. *)
Definition std_ok (w : World) (hout herr : nat) : Prop :=
  stdout_handler (obj w) = Some hout ∧
  stderr_handler (obj w) = Some herr ∧
  hout ≠ herr ∧
  (∃ hd, handlers w !! hout = Some hd ∧ same_sink (stdout_sink NOTSET) hd) ∧
  (∃ hd, handlers w !! herr = Some hd ∧ same_sink (stderr_sink NOTSET) hd).

(** What holds of a [Logging] object whose [_presetup] has run. *)
Definition Logging_ok (w : World) : Prop :=
  "_presetup" ∈ noops (obj w) → ∃ hout herr, std_ok w hout herr.

(** [w'] extends [w]: the object's console handlers are the same objects,
    no method has been re-armed, and every handler object is still there,
    with its kind and filters. *)
Definition ext (w w' : World) : Prop :=
  stdout_handler (obj w') = stdout_handler (obj w) ∧
  stderr_handler (obj w') = stderr_handler (obj w) ∧
  noops (obj w) ⊆ noops (obj w') ∧
  (∀ h hd, handlers w !! h = Some hd →
           ∃ hd', handlers w' !! h = Some hd' ∧ same_sink hd hd').

Definition frames {A} (c : M A) : Prop := ∀ w, ext w (snd (c w)).


(** The last three statements of [_setup]. *)
Definition setup_end (verbose_level error_level : Z) : M unit :=
  stdout_setLevel verbose_level ;;
  stderr_setLevel error_level ;;
  modify (set_raiseExceptions false).

(** A process that has imported the module and run [_presetup] only. *)
Definition presetup_done : World := exec _presetup imported.

(** A second [Logging] object made in a process that is already
    configured. *)
Definition second_object : World := set_obj (λ _, Logging___init__) configured.

(** A process in which the log directory cannot be written. *)
Definition unwritable_log : World :=
  Build_World (obj imported) (root imported) (loggers imported)
    (handlers imported) (level_names imported) (raiseExceptions imported)
    (captureWarnings imported) (librepo_log imported) (files imported)
    (modes imported) {["/var/log"]} (emitted imported).

(** ** Measures of a run of [emit] *)



(** Every rollover of the run comes directly after the lock was taken;
    [locked] tells whether the event before was [Locked]. *)
Fixpoint rollovers_locked (locked : bool) (evs : list Event) : bool :=
  match evs with
  | [] => true
  | RolledOver :: evs' => locked && rollovers_locked false evs'
  | Locked :: evs' => rollovers_locked true evs'
  | _ :: evs' => rollovers_locked false evs'
  end.

(** The dial tables in closed form. *)
Definition verbose_level_of (v : Z) : Z :=
  if v =? 0 then SUPERCRITICAL
  else if v <=? 2 then INFO
  else if v <=? 6 then DEBUG
  else DDEBUG.

Definition error_level_of (e : Z) : Z :=
  if e =? 0 then SUPERCRITICAL
  else if e =? 1 then CRITICAL
  else if e =? 2 then ERROR
  else WARNING.

(** ** What a computation leaves alone *)

(** [c] never changes the part [proj] of the state, whether it returns or
    raises. *)
Definition keeps {X A} (proj : World → X) (c : M A) : Prop :=
  ∀ w, proj (snd (c w)) = proj w.

(** Whether the method [name] is still the method of the class. *)
Definition armed (name : string) (w : World) : bool :=
  bool_decide (name ∉ noops (obj w)).

(** The handler [h] is switched off: its level is [SUPERCRITICAL]. *)
Definition muted (h : nat) (w : World) : Prop :=
  ∃ hd, handlers w !! h = Some hd ∧ h_level hd = SUPERCRITICAL.

(** [c] leaves a switched-off handler switched off and hands it no
    record. *)
Definition quiet {A} (h : nat) (c : M A) : Prop :=
  ∀ w, muted h w →
       muted h (snd (c w)) ∧ received (snd (c w)) h = received w h.

(** [_setup] after [_presetup], cut at the call of
    [_setup_librepo_logger]. *)
Definition setup_before_librepo (const : dnf_const) (logdir : string)
    (log_size log_rotate : Z) : M unit :=
  stdout_setLevel SUPERCRITICAL ;;
  stderr_setLevel SUPERCRITICAL ;;
  _setup_dnf_logger const logdir log_size log_rotate None None ;;
  logger_dnf ← getLogger "dnf";
  mret tt.

Definition setup_rpm_part (const : dnf_const) (logdir : string)
    (log_size log_rotate : Z) : M unit :=
  _setup_rpm_logger const logdir log_size log_rotate None None.

(** The four statements that attach the console handlers to ["dnf.rpm"]. *)
Definition setup_attach_console : M unit :=
  logger_rpm ← getLogger "dnf.rpm";
  w ← get_world;
  Logger_addHandler logger_rpm (stdout_handler (obj w)) ;;
  Logger_addHandler logger_rpm (stderr_handler (obj w)).

(** The handler object [_create_filehandler] returns. *)
Definition file_sink (logfile : string) (log_size log_rotate : Z) : Handler :=
  {| h_kind := MultiprocessRotatingFileHandler logfile log_size log_rotate;
     h_level := NOTSET;
     h_filters := [];
     h_formatter :=
       Some {| fmt := "%(asctime)s %(levelname)s %(message)s";
               datefmt := "%Y-%m-%dT%H:%M:%SZ";
               converter := gmtime |} |}.

(** The record [_paint_mark] logs. *)
Definition marker (const : dnf_const) : LogRecord :=
  {| levelno := INFO; msg := VStr (LOG_MARKER const) |}.

(** A process in which the log file of the ["dnf.rpm"] logger is there
    already, with a mode of its own. *)
Definition with_old_log : World :=
  set_modes (insert "/var/log/dnf.rpm.log" 384)
    (set_files (λ fs, {["/var/log/dnf.rpm.log"]} ∪ fs) imported).

(** * Properties *)

(** ** The dial tables *)

Lemma in_range_test (v : Z) :
  (0 <=? v) && (v <=? 10) = true ↔ 0 ≤ v ≤ 10.
Proof. rewrite andb_true_iff, !Z.leb_le. tauto. Qed.

Lemma out_of_range_test (v : Z) :
  (0 <=? v) && (v <=? 10) = false ↔ v < 0 ∨ 10 < v.
Proof. rewrite andb_false_iff, !Z.leb_gt. tauto. Qed.

Lemma verbose_lookup_large (v : Z) :
  6 < v → _VERBOSE_VAL_MAPPING !! v = None.
Proof.
  intros Hv. unfold _VERBOSE_VAL_MAPPING.
  repeat (rewrite lookup_insert_ne by lia). apply lookup_empty.
Qed.

Lemma err_lookup_large (e : Z) :
  2 < e → _ERR_VAL_MAPPING !! e = None.
Proof.
  intros He. unfold _ERR_VAL_MAPPING.
  repeat (rewrite lookup_insert_ne by lia). apply lookup_empty.
Qed.

Lemma verbose_in_range (v : Z) :
  0 ≤ v ≤ 10 →
  _cfg_verbose_val2level v = Ok (dict_get _VERBOSE_VAL_MAPPING v DDEBUG).
Proof.
  intros Hv. unfold _cfg_verbose_val2level.
  by rewrite (proj2 (in_range_test v) Hv).
Qed.

Lemma err_in_range (e : Z) :
  0 ≤ e ≤ 10 →
  _cfg_err_val2level e = Ok (dict_get _ERR_VAL_MAPPING e WARNING).
Proof.
  intros He. unfold _cfg_err_val2level.
  by rewrite (proj2 (in_range_test e) He).
Qed.

Lemma named_tiers (l : Z) :
  l ∈ named ↔
  l = TRACE ∨ l = SUBDEBUG ∨ l = DDEBUG ∨ l = DEBUG ∨ l = INFO ∨
  l = WARNING ∨ l = ERROR ∨ l = CRITICAL.
Proof. unfold named. rewrite !elem_of_cons, elem_of_nil. tauto. Qed.

(** [TRACE], not [DDEBUG], is the most verbose named tier below [DEBUG]. *)
Lemma most_verbose_below_DEBUG (l : Z) :
  most_verbose_below DEBUG l ↔ l = TRACE.
Proof.
  unfold most_verbose_below. split.
  - intros (Hl & Hlt & Hmin).
    assert (TRACE ∈ named) as Ht by (apply named_tiers; auto).
    specialize (Hmin TRACE Ht). apply named_tiers in Hl.
    unfold TRACE, SUBDEBUG, DDEBUG, DEBUG, INFO, WARNING, ERROR, CRITICAL in *.
    lia.
  - intros ->. split; [apply named_tiers; auto|]. split; [reflexivity|].
    intros l' Hl' _. apply named_tiers in Hl'.
    unfold TRACE, SUBDEBUG, DDEBUG, DEBUG, INFO, WARNING, ERROR, CRITICAL in *.
    lia.
Qed.

(** The only named neighbour of [TRACE] is [SUBDEBUG]. *)
Lemma adjacent_TRACE (l : Z) :
  adjacent TRACE l ↔ l = SUBDEBUG.
Proof.
  unfold adjacent. split.
  - intros (_ & Hl & Hne & Hbetween).
    assert (SUBDEBUG ∈ named) as Hs by (apply named_tiers; auto).
    specialize (Hbetween SUBDEBUG Hs). apply named_tiers in Hl.
    unfold TRACE, SUBDEBUG, DDEBUG, DEBUG, INFO, WARNING, ERROR, CRITICAL in *.
    lia.
  - intros ->. repeat split; try (apply named_tiers; auto); try done.
    intros m Hm. apply named_tiers in Hm.
    unfold TRACE, SUBDEBUG, DDEBUG, DEBUG, INFO, WARNING, ERROR, CRITICAL in *.
    lia.
Qed.

(** C2, as stated, fails at the dial value 7: the level returned there is
    [DDEBUG], which is neither the most verbose named tier below [DEBUG]
    (that is [TRACE]) nor the neighbour of [TRACE] (that is [SUBDEBUG]). *)
Lemma verbosity_7_is_not_the_most_verbose_tier :
  ¬ ∃ l, _cfg_verbose_val2level 7 = Ok l ∧
         (most_verbose_below DEBUG l ∨ adjacent TRACE l).
Proof.
  intros (l & Hl & Hcases).
  assert (l = DDEBUG) as ->.
  { rewrite (verbose_in_range 7) in Hl by lia. by injection Hl as <-. }
  destruct Hcases as [H|H].
  - apply most_verbose_below_DEBUG in H. discriminate H.
  - apply adjacent_TRACE in H. discriminate H.
Qed.

(** C2, amended: for every verbosity dial value from 0 to 10,
    [_cfg_verbose_val2level] returns [SUPERCRITICAL] for 0, [INFO] for 1 and
    2, [DEBUG] for 3 to 6 and, for 7 to 10, [DDEBUG]: the named tier next
    below [DEBUG], which lies above [SUBDEBUG] and [TRACE]. *)
Theorem verbosity_dial_levels (v : Z) :
  0 ≤ v ≤ 10 →
  (v = 0 → _cfg_verbose_val2level v = Ok SUPERCRITICAL) ∧
  (1 ≤ v ≤ 2 → _cfg_verbose_val2level v = Ok INFO) ∧
  (3 ≤ v ≤ 6 → _cfg_verbose_val2level v = Ok DEBUG) ∧
  (7 ≤ v ≤ 10 → _cfg_verbose_val2level v = Ok DDEBUG) ∧
  adjacent DDEBUG DEBUG ∧ TRACE < SUBDEBUG < DDEBUG ∧ DDEBUG < DEBUG.
Proof.
  intros Hv. rewrite (verbose_in_range v Hv). unfold dict_get.
  split; [|split; [|split; [|split; [|split]]]].
  - by intros ->.
  - intros H. assert (v = 1 ∨ v = 2) as [-> | ->] by lia; reflexivity.
  - intros H. assert (v = 3 ∨ v = 4 ∨ v = 5 ∨ v = 6) as [-> |[-> |[-> | ->]]]
      by lia; reflexivity.
  - intros H. by rewrite verbose_lookup_large by lia.
  - unfold adjacent. repeat split; try (apply named_tiers; auto); try done.
    intros m Hm. apply named_tiers in Hm.
    unfold TRACE, SUBDEBUG, DDEBUG, DEBUG, INFO, WARNING, ERROR, CRITICAL in *.
    lia.
  - done.
Qed.

Lemma verbosity_dial_levels_witness :
  0 ≤ 9 ≤ 10 ∧ _cfg_verbose_val2level 9 = Ok DDEBUG.
Proof.
  split; [lia|].
  apply (verbosity_dial_levels 9); lia.
Defined.

(** C3: for every error dial value from 0 to 10, [_cfg_err_val2level]
    returns [SUPERCRITICAL] for 0, [CRITICAL] for 1, [ERROR] for 2 and
    [WARNING] for every value from 3 to 10. *)
Theorem error_dial_levels (e : Z) :
  0 ≤ e ≤ 10 →
  (e = 0 → _cfg_err_val2level e = Ok SUPERCRITICAL) ∧
  (e = 1 → _cfg_err_val2level e = Ok CRITICAL) ∧
  (e = 2 → _cfg_err_val2level e = Ok ERROR) ∧
  (3 ≤ e ≤ 10 → _cfg_err_val2level e = Ok WARNING).
Proof.
  intros He. rewrite (err_in_range e He). unfold dict_get.
  repeat split.
  - by intros ->.
  - by intros ->.
  - by intros ->.
  - intros H. by rewrite err_lookup_large by lia.
Qed.

Lemma error_dial_levels_witness :
  0 ≤ 3 ≤ 10 ∧ _cfg_err_val2level 3 = Ok WARNING.
Proof.
  split; [lia|].
  apply (error_dial_levels 3); lia.
Defined.

(** C8: for every integer outside 0..10 both functions fail their
    assertion and return no level; for every integer inside 0..10 neither
    assertion fires and each function returns a level. *)
Theorem dial_precondition (v : Z) :
  (v < 0 ∨ 10 < v →
     _cfg_verbose_val2level v = Raise AssertionError ∧
     _cfg_err_val2level v = Raise AssertionError) ∧
  (0 ≤ v ≤ 10 →
     (∃ l, _cfg_verbose_val2level v = Ok l) ∧
     (∃ l, _cfg_err_val2level v = Ok l)).
Proof.
  split.
  - intros Hv. apply out_of_range_test in Hv.
    unfold _cfg_verbose_val2level, _cfg_err_val2level. by rewrite Hv.
  - intros Hv. rewrite (verbose_in_range v Hv), (err_in_range v Hv). eauto.
Qed.

Lemma dial_precondition_witness :
  (_cfg_verbose_val2level 11 = Raise AssertionError ∧
   _cfg_err_val2level (-1) = Raise AssertionError) ∧
  (∃ l, _cfg_verbose_val2level 10 = Ok l).
Proof.
  split; [split|].
  - apply (dial_precondition 11). lia.
  - apply (dial_precondition (-1)). lia.
  - apply (dial_precondition 10). lia.
Defined.

(** ** The rotating file handler's [emit] *)

Lemma with_rotate_lock_events (a : Attempt) :
  ∀ ev, ev ∈ fst (with_rotate_lock a) →
        ev = Locked ∨ ev = RolledOver ∨ ev = Unlocked.
Proof.
  unfold with_rotate_lock.
  destruct (lock_enter a), (doRollover a), (lock_exit a); simpl; intros ev Hev;
    repeat (apply elem_of_cons in Hev as [->|Hev]; [tauto|]);
    by apply elem_of_nil in Hev.
Qed.

Lemma with_rotate_lock_ok (a : Attempt) (ev : list Event) :
  with_rotate_lock a = (ev, Ok tt) → ev = [Locked; RolledOver; Unlocked].
Proof.
  unfold with_rotate_lock.
  destruct (lock_enter a), (doRollover a), (lock_exit a); simpl; congruence.
Qed.

(** A [try] block that raises has written nothing. *)
Lemma try_body_raise_events (a : Attempt) (record : LogRecord) (e : exn) :
  snd (try_body a record) = Raise e →
  ∀ ev, ev ∈ fst (try_body a record) →
        ev = Locked ∨ ev = RolledOver ∨ ev = Unlocked.
Proof.
  unfold try_body. destruct (shouldRollover a) as [[|]|e0]; simpl.
  - pose proof (with_rotate_lock_events a) as Hlock.
    destruct (with_rotate_lock a) as [ev0 [[]|e1]]; simpl in *.
    + destruct (FileHandler_emit a); simpl; [discriminate|]. intros _. exact Hlock.
    + intros _. exact Hlock.
  - destruct (FileHandler_emit a); simpl; [discriminate|].
    intros _ ev Hev. by apply elem_of_nil in Hev.
  - intros _ ev Hev. by apply elem_of_nil in Hev.
Qed.

(** A [try] block that completes has rolled over when that was due and has
    written the record last. *)
Lemma try_body_ok (a : Attempt) (record : LogRecord) (ev : list Event) :
  try_body a record = (ev, Ok tt) →
  ∃ due, shouldRollover a = Ok due ∧ ev = completed_attempt due record.
Proof.
  unfold try_body, completed_attempt.
  destruct (shouldRollover a) as [[|]|e0]; simpl; [| |discriminate].
  - destruct (with_rotate_lock a) as [ev0 [[]|e1]] eqn:Hlock; [|discriminate].
    apply with_rotate_lock_ok in Hlock as ->.
    destruct (FileHandler_emit a); [|discriminate].
    intros [= <-]. by exists true.
  - destruct (FileHandler_emit a); [|discriminate].
    intros [= <-]. by exists false.
Qed.

Lemma contended_prefix_sleeps (env : nat → Attempt) (record : LogRecord) (n k : nat) :
  (∀ j, (j < n)%nat → contended (env (k + j)%nat) record) →
  sleeps (contended_prefix env record k n) = replicate n backoff.
Proof.
  revert k. induction n as [|n IH]; intros k Hc; [reflexivity|].
  simpl. unfold sleeps in *. rewrite omap_app. simpl.
  destruct (Hc 0%nat ltac:(lia)) as (e & He & _).
  rewrite Nat.add_0_r in He.
  assert (omap (λ ev, match ev with Slept s => Some s | _ => None end)
               (fst (try_body (env k) record)) = []) as ->.
  { pose proof (try_body_raise_events _ _ _ He) as Hevs.
    induction (fst (try_body (env k) record)) as [|ev evs IHevs]; [done|].
    simpl. destruct (Hevs ev ltac:(left)) as [->|[->| ->]]; simpl;
      apply IHevs; intros ev' Hev'; apply Hevs; by right. }
  simpl. f_equal. apply IH. intros j Hj.
  replace (S k + j)%nat with (k + S j)%nat by lia. apply Hc. lia.
Qed.

Lemma contended_prefix_quiet (env : nat → Attempt) (record : LogRecord) (n k : nat) :
  (∀ j, (j < n)%nat → contended (env (k + j)%nat) record) →
  ∀ ev, ev ∈ contended_prefix env record k n →
        is_Written ev = false ∧ is_HandledError ev = false.
Proof.
  revert k. induction n as [|n IH]; intros k Hc ev Hev.
  { by apply elem_of_nil in Hev. }
  simpl in Hev. apply elem_of_app in Hev as [Hev|Hev].
  - destruct (Hc 0%nat ltac:(lia)) as (e & He & _).
    rewrite Nat.add_0_r in He.
    by destruct (try_body_raise_events _ _ _ He ev Hev) as [->|[->| ->]].
  - apply elem_of_cons in Hev as [->|Hev]; [done|].
    apply (IH (S k)); [|done]. intros j Hj.
    replace (S k + j)%nat with (k + S j)%nat by lia. apply Hc. lia.
Qed.

(** After [n] contended attempts the loop is where it started, [n] sleeps
    later and with the same record. *)
Lemma emit_after_contention (env : nat → Attempt) (record : LogRecord) (n k fuel : nat) :
  (∀ j, (j < n)%nat → contended (env (k + j)%nat) record) →
  emit env record k (n + fuel) =
    (contended_prefix env record k n ++ fst (emit env record (k + n) fuel),
     snd (emit env record (k + n) fuel)).
Proof.
  revert k. induction n as [|n IH]; intros k Hc.
  { simpl. rewrite Nat.add_0_r. by destruct (emit env record k fuel). }
  destruct (Hc 0%nat ltac:(lia)) as (e & He & Hlock).
  rewrite Nat.add_0_r in He.
  simpl. destruct (try_body (env k) record) as [ev res] eqn:Hbody.
  simpl in He. subst res. rewrite Hlock.
  rewrite (IH (S k)).
  - replace (S k + n)%nat with (k + S n)%nat by lia.
    simpl. by rewrite <- app_assoc.
  - intros j Hj. replace (S k + j)%nat with (k + S j)%nat by lia.
    apply Hc. lia.
Qed.

(** C1: while the attempts of [emit] end in a lock-contention error (raised
    by the rollover under the lock or anywhere else in the [try] block),
    the handler sleeps the fixed 0.01 s (10 ms) after each of them and tries
    the same record again, however many attempts that takes: after [n] such
    attempts it has slept [n] times, has neither written nor reported the
    record, and has not returned; the run continues as a run of [emit] on
    the same record, and as soon as an attempt completes the record is
    written, after the rollover under the lock when one was due. *)
Theorem emit_retries_on_lock_contention
    (env : nat → Attempt) (record : LogRecord) (n : nat) :
  (∀ j, (j < n)%nat → contended (env j) record) →
  emit env record 0 n = (contended_prefix env record 0 n, Retrying) ∧
  sleeps (contended_prefix env record 0 n) = replicate n backoff ∧
  (backoff * 1000 == 10)%Q ∧
  (∀ ev, ev ∈ contended_prefix env record 0 n →
         is_Written ev = false ∧ is_HandledError ev = false) ∧
  (∀ fuel,
     emit env record 0 (n + fuel) =
       (contended_prefix env record 0 n ++ fst (emit env record n fuel),
        snd (emit env record n fuel))) ∧
  (∀ fuel evs,
     try_body (env n) record = (evs, Ok tt) →
     ∃ due, shouldRollover (env n) = Ok due ∧
       emit env record 0 (n + S fuel) =
         (contended_prefix env record 0 n ++ completed_attempt due record,
          Returned)).
Proof.
  intros Hc.
  assert (∀ j, (j < n)%nat → contended (env (0 + j)%nat) record) as Hc0
    by (intros j Hj; by apply Hc).
  pose proof (emit_after_contention env record n 0 0 Hc0) as Hstill.
  rewrite Nat.add_0_r in Hstill. simpl in Hstill. rewrite app_nil_r in Hstill.
  repeat split.
  - exact Hstill.
  - by apply contended_prefix_sleeps.
  - by apply (contended_prefix_quiet env record n 0 Hc0).
  - by apply (contended_prefix_quiet env record n 0 Hc0).
  - intros fuel. apply (emit_after_contention env record n 0 fuel Hc0).
  - intros fuel evs Hbody.
    destruct (try_body_ok _ _ _ Hbody) as (due & Hdue & ->).
    exists due. split; [done|].
    rewrite (emit_after_contention env record n 0 (S fuel) Hc0).
    simpl. by rewrite Hbody.
Qed.

Lemma emit_retries_on_lock_contention_witness :
  emit (busy_then_free 2) hello 0 2 =
    ([Slept backoff; Slept backoff], Retrying) ∧
  emit (busy_then_free 2) hello 0 3 =
    ([Slept backoff; Slept backoff; Locked; RolledOver; Unlocked; Written hello],
     Returned).
Proof.
  assert (∀ j, (j < 2)%nat → contended (busy_then_free 2 j) hello) as Hbusy.
  { intros j Hj. exists ProcessLockError.
    destruct j as [|[|j]]; [split; reflexivity | split; reflexivity | lia]. }
  pose proof (emit_retries_on_lock_contention (busy_then_free 2) hello 2 Hbusy)
    as (Hretry & _ & _ & _ & _ & Hdone).
  split; [exact Hretry|].
  destruct (Hdone 0%nat (completed_attempt true hello) eq_refl) as (due & Hdue & Hrun).
  injection Hdue as <-. exact Hrun.
Defined.

(** An exception that does not derive from [Exception] is caught by
    neither handler and leaves [emit]. *)
Lemma emit_propagates_base_exceptions
    (env : nat → Attempt) (record : LogRecord) (k fuel : nat)
    (e : exn) (evs : list Event) :
  try_body (env k) record = (evs, Raise e) →
  is_Exception e = false →
  emit env record k (S fuel) = (evs, Propagated e).
Proof.
  intros Hbody He. simpl. rewrite Hbody.
  destruct e; try discriminate He; reflexivity.
Qed.

Lemma emit_propagates_base_exceptions_witness :
  emit interrupted hello 0 1 = ([], Propagated KeyboardInterrupt).
Proof.
  exact (emit_propagates_base_exceptions interrupted hello 0 0
           KeyboardInterrupt [] eq_refl eq_refl).
Defined.

(** C6: when an attempt of [emit] fails with an error that is not lock
    contention (any [Exception] other than the two lock errors), the handler
    calls [handleError] with the record and returns: the record is not
    written, the loop does not go round again, and no exception reaches the
    caller.  Earlier attempts of the same call may have been contended. *)
Theorem emit_reports_other_errors
    (env : nat → Attempt) (record : LogRecord) (n : nat)
    (e : exn) (evs : list Event) :
  (∀ j, (j < n)%nat → contended (env j) record) →
  try_body (env n) record = (evs, Raise e) →
  is_lock_error e = false →
  is_Exception e = true →
  ∀ fuel,
    emit env record 0 (n + S fuel) =
      (contended_prefix env record 0 n ++ evs ++ [HandledError record], Returned) ∧
    (∀ ev, ev ∈ contended_prefix env record 0 n ++ evs →
           is_Written ev = false ∧ is_HandledError ev = false).
Proof.
  intros Hc Hbody Hlock Hexc fuel.
  assert (∀ j, (j < n)%nat → contended (env (0 + j)%nat) record) as Hc0
    by (intros j Hj; by apply Hc).
  split.
  - rewrite (emit_after_contention env record n 0 (S fuel) Hc0).
    simpl. by rewrite Hbody, Hlock, Hexc.
  - intros ev Hev. apply elem_of_app in Hev as [Hev|Hev].
    + by apply (contended_prefix_quiet env record n 0 Hc0).
    + assert (snd (try_body (env n) record) = Raise e) as Hres by by rewrite Hbody.
      pose proof (try_body_raise_events _ _ _ Hres ev) as Hevs.
      rewrite Hbody in Hevs.
      by destruct (Hevs Hev) as [->|[->| ->]].
Qed.

Lemma emit_reports_other_errors_witness :
  emit disk_full hello 0 1 = ([HandledError hello], Returned).
Proof.
  assert (∀ j, (j < 0)%nat → contended (disk_full j) hello) as Hnone
    by (intros j Hj; lia).
  exact (proj1 (emit_reports_other_errors disk_full hello 0 OSError []
                  Hnone eq_refl eq_refl eq_refl 0%nat)).
Defined.

(** ** The libdnf logger callback *)

Lemma mapping_is_table (libdnf : libdnf_Logger) :
  _LIBDNF_TO_DNF_LOGLEVEL_MAPPING libdnf = list_to_map (reverse (level_table libdnf)).
Proof. reflexivity. Qed.

Lemma mapping_lookup (libdnf : libdnf_Logger) (native dnf_level : Z) :
  NoDup (level_table libdnf).*1 →
  (native, dnf_level) ∈ level_table libdnf →
  _LIBDNF_TO_DNF_LOGLEVEL_MAPPING libdnf !! native = Some dnf_level.
Proof.
  intros Hnd Hin. rewrite mapping_is_table.
  apply elem_of_list_to_map_1.
  - by rewrite fmap_reverse, reverse_Permutation.
  - by apply elem_of_reverse.
Qed.

Lemma init_logger (w0 : World) (self : LibdnfLoggerCB) :
  result LibdnfLoggerCB___init__ w0 = Ok self → _logger self = "dnf".
Proof. unfold result. simpl. by intros [= <-]. Qed.

(** C7, as stated, fails: in a process that has run [_setup], a warning
    handed to the callback is logged on the logger ["dnf"] and reaches the
    standard error handler and the file handler of [dnf.log]; the file
    handler of the ["dnf.rpm"] logger never sees it, and the call is not the
    call of [log] on ["dnf.rpm"]. *)
Lemma native_warning_is_not_logged_on_dnf_rpm :
  let payload := [VInt (Level_WARNING sample_libdnf); VStr "disk slow"] in
  let record := {| levelno := WARNING; msg := VStr "disk slow" |} in
  ∃ self, result LibdnfLoggerCB___init__ fresh_interpreter = Ok self ∧
  let after := exec (write sample_libdnf self 0 payload) configured in
  l_handlers (the_logger configured "dnf") = [Some 0; Some 1; Some 2]%nat ∧
  l_handlers (the_logger configured "dnf.rpm") = [Some 3; Some 0; Some 1]%nat ∧
  received after 2%nat = received configured 2%nat ++ [record] ∧
  received after 3%nat = received configured 3%nat ∧
  write sample_libdnf self 0 payload configured ≠
    Logger_log "dnf.rpm" WARNING (VStr "disk slow") configured.
Proof.
  exists {| _logger := "dnf" |}. split; [reflexivity|].
  repeat split; try (vm_compute; reflexivity).
  intros Heq.
  apply (f_equal (λ rw, received (snd rw) 3%nat)) in Heq.
  vm_compute in Heq. discriminate Heq.
Qed.

(** C7, amended: for a payload of two values (level, message) or of four
    (time, pid, level, message) whose level is a key of the table, [write]
    gives the level by the table critical→CRITICAL, error→ERROR,
    warning→WARNING, notice→INFO, info→INFO, debug→DEBUG, trace→TRACE and
    logs the message at that level on the logger ["dnf"], the client's own
    stream. *)
Theorem native_bridge_logs_on_dnf
    (libdnf : libdnf_Logger) (w0 : World) (self : LibdnfLoggerCB)
    (source native dnf_level : Z) (time pid message : PyVal) (w : World) :
  NoDup (level_table libdnf).*1 →
  (native, dnf_level) ∈ level_table libdnf →
  result LibdnfLoggerCB___init__ w0 = Ok self →
  write libdnf self source [VInt native; message] w =
    Logger_log "dnf" dnf_level message w ∧
  write libdnf self source [time; pid; VInt native; message] w =
    Logger_log "dnf" dnf_level message w.
Proof.
  intros Hnd Hin Hself.
  pose proof (mapping_lookup libdnf native dnf_level Hnd Hin) as Hget.
  apply init_logger in Hself.
  unfold write, mapping_getitem; simpl.
  unfold mbind, M_bind, mret, M_ret; simpl.
  by rewrite Hget, Hself.
Qed.

Lemma native_bridge_logs_on_dnf_witness :
  write sample_libdnf {| _logger := "dnf" |} 0
        [VInt 0; VInt 4242; VInt 3; VStr "disk slow"] configured =
    Logger_log "dnf" INFO (VStr "disk slow") configured.
Proof.
  assert (NoDup (level_table sample_libdnf).*1) as Hnd
    by (apply (bool_decide_unpack _); vm_compute; exact I).
  assert ((3, INFO) ∈ level_table sample_libdnf) as Hin
    by (apply (bool_decide_unpack _); vm_compute; exact I).
  exact (proj2 (native_bridge_logs_on_dnf sample_libdnf fresh_interpreter
                  {| _logger := "dnf" |} 0 3 INFO (VInt 0) (VInt 4242)
                  (VStr "disk slow") configured Hnd Hin eq_refl)).
Defined.

(** C10: a call of [write] whose payload has neither two nor four values
    raises [UnboundLocalError] when it reads [level], before anything is
    logged: the state is unchanged. *)
Theorem write_other_arity_is_unbound
    (libdnf : libdnf_Logger) (self : LibdnfLoggerCB) (source : Z)
    (args : list PyVal) (w : World) :
  length args ≠ 2%nat →
  length args ≠ 4%nat →
  write libdnf self source args w = (Raise UnboundLocalError, w).
Proof.
  intros H2 H4.
  destruct args as [|a [|b [|c [|d [|e args]]]]]; simpl in *;
    try reflexivity; congruence.
Qed.

Lemma write_other_arity_is_unbound_witness :
  write sample_libdnf {| _logger := "dnf" |} 0
        [VInt 2; VStr "disk"; VStr "slow"] configured =
    (Raise UnboundLocalError, configured).
Proof.
  apply write_other_arity_is_unbound; simpl; lia.
Defined.

(** ** Reasoning about computations *)

Lemma bind_Ok {A B} (c : M A) (k : A → M B) (w w' : World) (b : B) :
  (c ≫= k) w = (Ok b, w') →
  ∃ a w1, c w = (Ok a, w1) ∧ k a w1 = (Ok b, w').
Proof.
  unfold mbind, M_bind. destruct (c w) as [[a|e] w1]; [eauto|discriminate].
Qed.

Lemma bind_run {A B} (c : M A) (k : A → M B) (w w1 : World) (a : A) :
  c w = (Ok a, w1) → (c ≫= k) w = k a w1.
Proof. unfold mbind, M_bind. by intros ->. Qed.

Lemma bind_raise {A B} (c : M A) (k : A → M B) (w w1 : World) (e : exn) :
  c w = (Raise e, w1) → (c ≫= k) w = (Raise e, w1).
Proof. unfold mbind, M_bind. by intros ->. Qed.

(** *** [only_once] *)

Lemma method_noop (name : string) (class_attr : M unit) (w : World) :
  name ∈ noops (obj w) → method name class_attr w = (Ok tt, w).
Proof.
  intros Hin. unfold method, get_world, mbind, M_bind.
  by rewrite decide_True.
Qed.

Lemma method_armed (name : string) (class_attr : M unit) (w : World) :
  name ∉ noops (obj w) → method name class_attr w = class_attr w.
Proof.
  intros Hin. unfold method, get_world, mbind, M_bind.
  by rewrite decide_False.
Qed.

(** A call that returns leaves the method rebound to [noop]. *)
Lemma once_returned (name : string) (func : M unit) (w w1 : World) :
  method name (only_once name func) w = (Ok tt, w1) →
  name ∈ noops (obj w1).
Proof.
  destruct (decide (name ∈ noops (obj w))) as [Hin|Hout].
  - rewrite method_noop by done. by intros [= <-].
  - rewrite method_armed by done. unfold only_once, swan_song.
    intros Hrun. apply bind_Ok in Hrun as (_ & w0 & _ & Hset).
    injection Hset as <-. simpl. set_solver.
Qed.

(** Once a call has returned, the next one, whatever its function and
    arguments, does nothing. *)
Lemma once_then_noop (name : string) (func func' : M unit) (w w1 : World) :
  method name (only_once name func) w = (Ok tt, w1) →
  method name (only_once name func') w1 = (Ok tt, w1).
Proof. intros Hrun. apply method_noop. by apply once_returned in Hrun. Qed.

Lemma once_twice (name : string) (func func' : M unit) (w : World) :
  (method name (only_once name func) ;; method name (only_once name func')) w =
  method name (only_once name func) w.
Proof.
  destruct (method name (only_once name func) w) as [[[]|e] w1] eqn:Hrun.
  - rewrite (bind_run _ _ _ _ _ Hrun). by eapply once_then_noop.
  - by rewrite (bind_raise _ _ _ _ _ Hrun).
Qed.

(** A call that raises leaves the method as it was: the exception is the
    body's, the state is the one the body left, and [setattr] has not run,
    so the next call runs the body again. *)
Lemma once_raised (name : string) (func : M unit) (w w1 : World) (e : exn) :
  method name (only_once name func) w = (Raise e, w1) →
  (name ∉ noops (obj w)) ∧ func w = (Raise e, w1).
Proof.
  intros Hrun. destruct (decide (name ∈ noops (obj w))) as [Hin|Hout].
  - rewrite method_noop in Hrun by done. discriminate Hrun.
  - split; [done|]. rewrite method_armed in Hrun by done.
    unfold only_once, swan_song, mbind, M_bind in Hrun.
    destruct (func w) as [[[]|e'] w']; [discriminate Hrun|done].
Qed.

Lemma once_raised_witness :
  ("_setup_dnf_logger" ∉ noops (obj unwritable_log)) ∧
  _setup_dnf_logger_body sample_const "/var/log" 1000 4 None None unwritable_log =
    (Raise OSError,
     exec (_setup_dnf_logger sample_const "/var/log" 1000 4 None None) unwritable_log).
Proof.
  apply (once_raised "_setup_dnf_logger"). vm_compute. reflexivity.
Defined.

(** ** Set-up runs once *)

(** C4, as stated, fails: [only_once] disarms a method on the [Logging]
    object it was called on ([setattr(self, ...)]), and only when the call
    returns; the process keeps no record of it.

    - In a process where [_setup] has returned on one [Logging] object, a
      call of [_setup] on a second object returns too, and runs the whole
      body again: four more handlers are built, three of them are attached
      to the logger ["dnf"] next to the first three, and the librepo log
      gets a second file.
    - On one object, a first call that raised (the log directory cannot be
      written) leaves [_setup] armed: the next call, with other arguments,
      runs the body and sets the process up with these second arguments. *)
Lemma setup_is_not_once_per_process :
  (_setup sample_const INFO WARNING "/var/log" 1000 4 imported = (Ok tt, configured) ∧
   result (_setup sample_const DDEBUG SUPERCRITICAL "/tmp" 1 0) second_object = Ok tt ∧
   _setup sample_const DDEBUG SUPERCRITICAL "/tmp" 1 0 second_object ≠
     (Ok tt, second_object) ∧
   length (handlers second_object) = 4%nat ∧
   length (handlers
             (exec (_setup sample_const DDEBUG SUPERCRITICAL "/tmp" 1 0)
                second_object)) = 8%nat ∧
   l_handlers (the_logger second_object "dnf") = [Some 0; Some 1; Some 2]%nat ∧
   l_handlers (the_logger
                 (exec (_setup sample_const DDEBUG SUPERCRITICAL "/tmp" 1 0)
                    second_object) "dnf") =
     [Some 0; Some 1; Some 2; Some 4; Some 5; Some 6]%nat ∧
   librepo_log second_object = [("/var/log/dnf.librepo.log", false)] ∧
   librepo_log (exec (_setup sample_const DDEBUG SUPERCRITICAL "/tmp" 1 0)
                  second_object) =
     [("/var/log/dnf.librepo.log", false); ("/tmp/dnf.librepo.log", true)]) ∧
  (result (_setup sample_const INFO WARNING "/var/log" 1000 4) unwritable_log =
     Raise OSError ∧
   result (_setup sample_const DDEBUG SUPERCRITICAL "/tmp" 1 0)
     (exec (_setup sample_const INFO WARNING "/var/log" 1000 4) unwritable_log) =
     Ok tt ∧
   length (handlers
             (exec (_setup sample_const INFO WARNING "/var/log" 1000 4)
                unwritable_log)) = 2%nat ∧
   length (handlers
             (exec (_setup sample_const DDEBUG SUPERCRITICAL "/tmp" 1 0)
                (exec (_setup sample_const INFO WARNING "/var/log" 1000 4)
                   unwritable_log))) = 4%nat ∧
   librepo_log
     (exec (_setup sample_const DDEBUG SUPERCRITICAL "/tmp" 1 0)
        (exec (_setup sample_const INFO WARNING "/var/log" 1000 4)
           unwritable_log)) = [("/tmp/dnf.librepo.log", true)]).
Proof.
  split.
  - split; [vm_compute; reflexivity|].
    split; [vm_compute; reflexivity|].
    split; [|repeat split; vm_compute; reflexivity].
    intros Heq.
    apply (f_equal (λ rw, length (handlers (snd rw)))) in Heq.
    vm_compute in Heq. discriminate Heq.
  - repeat split; vm_compute; reflexivity.
Qed.

(** C4, amended: a second call of [_setup] (or of [_presetup]) on the same
    [Logging] object, after a first call that returned, returns without
    raising and changes nothing, whatever its arguments; and in every state
    the two calls in sequence on one object do what the first call alone
    does, with the first arguments (when the first call raises, the sequence
    ends there). *)
Theorem setup_twice_is_setup_once (const : dnf_const)
    (verbose_level error_level : Z) (logdir : string) (log_size log_rotate : Z)
    (verbose_level' error_level' : Z) (logdir' : string) (log_size' log_rotate' : Z) :
  (∀ w w1,
     _setup const verbose_level error_level logdir log_size log_rotate w = (Ok tt, w1) →
     _setup const verbose_level' error_level' logdir' log_size' log_rotate' w1 = (Ok tt, w1)) ∧
  (∀ w,
     (_setup const verbose_level error_level logdir log_size log_rotate ;;
      _setup const verbose_level' error_level' logdir' log_size' log_rotate') w =
     _setup const verbose_level error_level logdir log_size log_rotate w) ∧
  (∀ w w1, _presetup w = (Ok tt, w1) → _presetup w1 = (Ok tt, w1)) ∧
  (∀ w, (_presetup ;; _presetup) w = _presetup w).
Proof.
  repeat split.
  - intros w w1. apply once_then_noop.
  - intros w. apply once_twice.
  - intros w w1. apply once_then_noop.
  - intros w. apply once_twice.
Qed.

Lemma setup_twice_is_setup_once_witness :
  exec (_setup sample_const INFO WARNING "/var/log" 1000 4 ;;
        _setup sample_const DDEBUG SUPERCRITICAL "/tmp" 1 0) imported = configured ∧
  _setup sample_const DDEBUG SUPERCRITICAL "/tmp" 1 0 configured = (Ok tt, configured).
Proof.
  pose proof (setup_twice_is_setup_once sample_const INFO WARNING "/var/log" 1000 4
                DDEBUG SUPERCRITICAL "/tmp" 1 0) as (Hnoop & Htwice & _).
  split.
  - unfold exec. by rewrite Htwice.
  - apply (Hnoop imported). vm_compute. reflexivity.
Defined.

(** *** What the set-up leaves in place *)

Lemma same_sink_refl (hd : Handler) : same_sink hd hd.
Proof. by split. Qed.

Lemma same_sink_trans (a b c : Handler) :
  same_sink a b → same_sink b c → same_sink a c.
Proof. intros [? ?] [? ?]. split; congruence. Qed.

Lemma ext_refl (w : World) : ext w w.
Proof.
  repeat split; try done. intros h hd Hh. exists hd. split; [done|].
  apply same_sink_refl.
Qed.

Lemma ext_trans (w1 w2 w3 : World) : ext w1 w2 → ext w2 w3 → ext w1 w3.
Proof.
  intros (Ho & He & Hn & Hh) (Ho' & He' & Hn' & Hh').
  repeat split; try congruence.
  - set_solver.
  - intros h hd Hl. destruct (Hh h hd Hl) as (hd' & Hl' & Hs).
    destruct (Hh' h hd' Hl') as (hd'' & Hl'' & Hs').
    exists hd''. split; [done|]. by eapply same_sink_trans.
Qed.

(** A step that touches neither the object's console attributes nor the
    handlers. *)
Lemma ext_same (w w' : World) :
  obj w' = obj w → handlers w' = handlers w → ext w w'.
Proof.
  intros Ho Hh. unfold ext. rewrite Ho, Hh.
  repeat split; try done. intros h hd Hl. exists hd. split; [done|].
  apply same_sink_refl.
Qed.

Lemma frames_ret {A} (a : A) : frames (mret a : M A).
Proof. intros w. apply ext_refl. Qed.

Lemma frames_raise {A} (e : exn) : frames (raise e : M A).
Proof. intros w. apply ext_refl. Qed.

Lemma frames_lift {A} (r : Result A) : frames (lift r).
Proof. intros w. apply ext_refl. Qed.

Lemma frames_get_world : frames get_world.
Proof. intros w. apply ext_refl. Qed.

Lemma frames_bind {A B} (c : M A) (k : A → M B) :
  frames c → (∀ a, frames (k a)) → frames (c ≫= k).
Proof.
  intros Hc Hk w. unfold mbind, M_bind.
  specialize (Hc w). destruct (c w) as [[a|e] w1]; simpl in *; [|done].
  eapply ext_trans; [exact Hc|]. apply Hk.
Qed.

Lemma frames_modify (f : World → World) :
  (∀ w, ext w (f w)) → frames (modify f).
Proof. intros Hf w. apply Hf. Qed.

Lemma frames_if {A} (b : bool) (c1 c2 : M A) :
  frames c1 → frames c2 → frames (if b then c1 else c2).
Proof. by destruct b. Qed.

Lemma frames_method (name : string) (c : M unit) :
  frames c → frames (method name c).
Proof.
  intros Hc. unfold method. apply frames_bind; [apply frames_get_world|].
  intros w. destruct (decide _); [apply frames_ret|done].
Qed.

Lemma frames_setattr_noop (name : string) : frames (setattr_noop name).
Proof.
  apply frames_modify. intros w. repeat split; simpl; try done.
  - set_solver.
  - intros h hd Hl. exists hd. split; [done|]. apply same_sink_refl.
Qed.

Lemma frames_only_once (name : string) (c : M unit) :
  frames c → frames (only_once name c).
Proof.
  intros Hc. unfold only_once, swan_song.
  apply frames_bind; [done|]. intros _. apply frames_setattr_noop.
Qed.

Lemma frames_update_logger (name : string) (f : Logger → Logger) :
  frames (update_logger name f).
Proof. apply frames_modify. intros w. by apply ext_same. Qed.

Lemma frames_new_Handler (kind : HandlerKind) : frames (new_Handler kind).
Proof.
  intros w. unfold new_Handler, get_world, modify, mbind, M_bind, mret, M_ret.
  simpl. repeat split; simpl; try done.
  intros h hd Hl. exists hd. split; [|apply same_sink_refl].
  by apply lookup_app_l_Some.
Qed.

Lemma frames_update_handler (h : nat) (f : Handler → Handler) :
  (∀ hd, same_sink hd (f hd)) → frames (update_handler h f).
Proof.
  intros Hf. apply frames_modify. intros w.
  repeat split; simpl; try done.
  intros h' hd' Hl. destruct (handlers w !! h) as [hd|] eqn:Hh.
  - destruct (decide (h = h')) as [<-|Hne].
    + exists (f hd). split.
      * apply list_lookup_insert_eq. by eapply lookup_lt_Some.
      * assert (hd' = hd) as -> by congruence. apply Hf.
    + exists hd'. split; [|apply same_sink_refl].
      by rewrite list_lookup_insert_ne.
  - exists hd'. split; [done|apply same_sink_refl].
Qed.

Lemma frames_Handler_setLevel (h : nat) (level : Z) :
  frames (Handler_setLevel h level).
Proof. apply frames_update_handler. intros hd. by split. Qed.

Lemma frames_Handler_setFormatter (h : nat) (f : Formatter) :
  frames (Handler_setFormatter h f).
Proof. apply frames_update_handler. intros hd. by split. Qed.

Lemma frames_deref (r : option nat) : frames (deref r).
Proof. destruct r; [apply frames_ret|apply frames_raise]. Qed.

Lemma frames_call_handler (record : LogRecord) (hdlr : option nat) :
  frames (call_handler record hdlr).
Proof.
  unfold call_handler. apply frames_bind; [apply frames_deref|]. intros h.
  apply frames_bind; [apply frames_get_world|]. intros w.
  destruct (handlers w !! h) as [hd|]; [|apply frames_ret].
  apply frames_if; [|apply frames_ret].
  apply frames_modify. intros w'. by apply ext_same.
Qed.

Lemma frames_call_each (record : LogRecord) (hs : list (option nat)) :
  frames (call_each record hs).
Proof.
  induction hs as [|h hs IH]; simpl; [apply frames_ret|].
  apply frames_bind; [apply frames_call_handler|]. by intros _.
Qed.

Lemma frames_callHandlers (record : LogRecord) (c : list Logger) :
  frames (callHandlers record c).
Proof.
  induction c as [|l c IH]; simpl; [apply frames_ret|].
  apply frames_bind; [apply frames_call_each|]. intros _.
  apply frames_if; [done|apply frames_ret].
Qed.

Lemma frames_Logger_log (logger : string) (level : Z) (message : PyVal) :
  frames (Logger_log logger level message).
Proof.
  unfold Logger_log. apply frames_bind; [apply frames_get_world|]. intros w.
  apply frames_if; [apply frames_callHandlers|apply frames_ret].
Qed.

Lemma frames_create (path : string) : frames (create path).
Proof.
  unfold create. apply frames_bind; [apply frames_get_world|]. intros w.
  destruct (decide _); [apply frames_raise|].
  apply frames_modify. intros w'. by apply ext_same.
Qed.

Lemma frames_os_chmod (path : string) (mode : Z) : frames (os_chmod path mode).
Proof.
  unfold os_chmod. apply frames_bind; [apply frames_get_world|]. intros w.
  destruct (decide _); [apply frames_raise|].
  apply frames_modify. intros w'. by apply ext_same.
Qed.

Create HintDb frames.
#[local] Hint Resolve frames_ret frames_raise frames_lift frames_get_world
  frames_method frames_only_once frames_setattr_noop frames_update_logger
  frames_new_Handler frames_Handler_setLevel frames_Handler_setFormatter
  frames_deref frames_Logger_log frames_create frames_os_chmod : frames.

(** Splits a sequence into its steps and closes each with the lemmas
    above. *)
Ltac frames_steps :=
  repeat first
    [ solve [auto with frames]
    | apply frames_bind; [|intros ?]
    | apply frames_if
    | apply frames_modify; intros ?; apply ext_same; reflexivity ].

Lemma frames_create_filehandler (logfile : string) (log_size log_rotate : Z) :
  frames (_create_filehandler logfile log_size log_rotate).
Proof.
  unfold _create_filehandler, os_path_exists, ensure_dir, touch,
    new_MultiprocessRotatingFileHandler.
  frames_steps.
Qed.

Lemma frames_getLogger (name : string) : frames (getLogger name).
Proof. unfold getLogger. frames_steps. Qed.

Lemma frames_Logger_setLevel (logger : string) (level : Z) :
  frames (Logger_setLevel logger level).
Proof. apply frames_update_logger. Qed.

Lemma frames_Logger_set_propagate (logger : string) (b : bool) :
  frames (Logger_set_propagate logger b).
Proof. apply frames_update_logger. Qed.

Lemma frames_Logger_addHandler (logger : string) (hdlr : option nat) :
  frames (Logger_addHandler logger hdlr).
Proof. apply frames_update_logger. Qed.

Lemma frames_paint_mark (const : dnf_const) (logger : string) :
  frames (_paint_mark const logger).
Proof. apply frames_Logger_log. Qed.

Lemma frames_stdout_setLevel (level : Z) : frames (stdout_setLevel level).
Proof. unfold stdout_setLevel. frames_steps. Qed.

Lemma frames_stderr_setLevel (level : Z) : frames (stderr_setLevel level).
Proof. unfold stderr_setLevel. frames_steps. Qed.

#[local] Hint Resolve frames_getLogger frames_Logger_setLevel
  frames_Logger_set_propagate frames_Logger_addHandler frames_paint_mark
  frames_stdout_setLevel frames_stderr_setLevel frames_create_filehandler
  : frames.

Lemma frames_setup_dnf_logger (const : dnf_const) (logdir : string)
    (log_size log_rotate : Z) (verbosity : option Z) (logfile : option string) :
  frames (_setup_dnf_logger const logdir log_size log_rotate verbosity logfile).
Proof.
  unfold _setup_dnf_logger. apply frames_method, frames_only_once.
  unfold _setup_dnf_logger_body. frames_steps.
Qed.

Lemma frames_setup_librepo_logger (const : dnf_const) (logdir : string)
    (verbosity : Z) (logfile : option string) :
  frames (_setup_librepo_logger const logdir verbosity logfile).
Proof.
  unfold _setup_librepo_logger. apply frames_method, frames_only_once.
  unfold _setup_librepo_logger_body. frames_steps.
Qed.

Lemma frames_setup_rpm_logger (const : dnf_const) (logdir : string)
    (log_size log_rotate : Z) (verbosity : option Z) (logfile : option string) :
  frames (_setup_rpm_logger const logdir log_size log_rotate verbosity logfile).
Proof.
  unfold _setup_rpm_logger. apply frames_method, frames_only_once.
  unfold _setup_rpm_logger_body. frames_steps.
Qed.

Lemma frames_new_logging_levels : frames _new_logging_levels.
Proof.
  unfold _new_logging_levels. apply frames_method, frames_only_once.
  unfold _new_logging_levels_body, addLevelName. frames_steps.
Qed.

#[local] Hint Resolve frames_setup_dnf_logger frames_setup_librepo_logger
  frames_setup_rpm_logger frames_new_logging_levels : frames.


Lemma bind_assoc {A B C} (c : M A) (k : A → M B) (k' : B → M C) (w : World) :
  ((c ≫= k) ≫= k') w = (c ≫= (λ a, k a ≫= k')) w.
Proof.
  unfold mbind, M_bind. by destruct (c w) as [[a|e] w1].
Qed.


(** *** What [_presetup] builds *)

Lemma update_middle (hs tl : list Handler) (x : Handler) (f : Handler → Handler) :
  match (hs ++ x :: tl) !! length hs with
  | Some hd => <[length hs := f hd]> (hs ++ x :: tl)
  | None => hs ++ x :: tl
  end = hs ++ f x :: tl.
Proof.
  rewrite list_lookup_middle by done.
  rewrite insert_app_r_alt by lia. by rewrite Nat.sub_diag.
Qed.

Lemma the_logger_update (name : string) (f : Logger → Logger) (w : World) :
  the_logger (exec (update_logger name f) w) name = f (the_logger w name).
Proof. unfold the_logger at 1. simpl. by rewrite lookup_insert_eq. Qed.

Lemma the_logger_same (name : string) (w w' : World) :
  loggers w' = loggers w → the_logger w' name = the_logger w name.
Proof. unfold the_logger. by intros ->. Qed.

Lemma new_logging_levels_run (w : World) :
  ∃ w0, _new_logging_levels w = (Ok tt, w0) ∧
        handlers w0 = handlers w ∧ loggers w0 = loggers w ∧
        stdout_handler (obj w0) = stdout_handler (obj w) ∧
        stderr_handler (obj w0) = stderr_handler (obj w) ∧
        noops (obj w) ⊆ noops (obj w0).
Proof.
  unfold _new_logging_levels.
  destruct (decide ("_new_logging_levels" ∈ noops (obj w))) as [Hin|Hout].
  - rewrite method_noop by done. by exists w.
  - rewrite method_armed by done. eexists. split; [reflexivity|].
    simpl. repeat split; try done. set_solver.
Qed.

(** Runs the first statement of a sequence when it is one that cannot
    raise, and names the state it leaves. *)
Ltac run_step c w a w' :=
  rewrite (bind_run c _ w (exec c w) a eq_refl);
  set (w' := exec c w).

(** What [_presetup]'s body builds, from any state. *)
Lemma presetup_body_run (w : World) :
  ∃ w', _presetup_body w = (Ok tt, w') ∧
        handlers w' = handlers w ++ [stdout_sink INFO; stderr_sink WARNING] ∧
        stdout_handler (obj w') = Some (length (handlers w)) ∧
        stderr_handler (obj w') = Some (S (length (handlers w))) ∧
        noops (obj w) ⊆ noops (obj w') ∧
        l_level (the_logger w' "dnf") = TRACE ∧
        Some (length (handlers w)) ∈ l_handlers (the_logger w' "dnf") ∧
        Some (S (length (handlers w))) ∈ l_handlers (the_logger w' "dnf").
Proof.
  destruct (new_logging_levels_run w) as (w0 & Hrun & Hh & _ & _ & _ & Hn).
  unfold _presetup_body. rewrite (bind_run _ _ _ _ _ Hrun). clear Hrun.
  (* logger_dnf = logging.getLogger("dnf"); logger_dnf.setLevel(TRACE) *)
  run_step (getLogger "dnf") w0 "dnf" w1.
  assert (handlers w1 = handlers w) as Hh1 by done.
  assert (noops (obj w) ⊆ noops (obj w1)) as Hn1 by done.
  clearbody w1. clear dependent w0.
  run_step (Logger_setLevel "dnf" TRACE) w1 tt w2.
  assert (handlers w2 = handlers w) as Hh2 by done.
  assert (noops (obj w) ⊆ noops (obj w2)) as Hn2 by done.
  assert (l_level (the_logger w2 "dnf") = TRACE) as Hl2
    by (unfold w2, Logger_setLevel; by rewrite the_logger_update).
  clearbody w2. clear dependent w1.
  (* stdout *)
  run_step (new_Handler (StreamHandler sys_stdout)) w2 (length (handlers w2)) w3.
  assert (handlers w3 =
          handlers w ++ [Build_Handler (StreamHandler sys_stdout) NOTSET [] None])
    as Hh3 by (simpl; by rewrite Hh2).
  assert (noops (obj w) ⊆ noops (obj w3)) as Hn3 by done.
  assert (the_logger w3 "dnf" = the_logger w2 "dnf") as Hl3 by done.
  rewrite <- Hl3 in Hl2. rewrite Hh2. clearbody w3. clear dependent w2.
  run_step (Handler_setLevel (length (handlers w)) INFO) w3 tt w4.
  assert (handlers w4 =
          handlers w ++ [Build_Handler (StreamHandler sys_stdout) INFO [] None])
    as Hh4 by (simpl; rewrite Hh3; apply update_middle).
  assert (noops (obj w) ⊆ noops (obj w4)) as Hn4 by done.
  assert (the_logger w4 "dnf" = the_logger w3 "dnf") as Hl4 by done.
  rewrite <- Hl4 in Hl2. clearbody w4. clear dependent w3.
  run_step (Handler_addFilter (length (handlers w)) {| max_level := WARNING |}) w4 tt w5.
  assert (handlers w5 = handlers w ++ [stdout_sink INFO])
    as Hh5 by (simpl; rewrite Hh4; apply update_middle).
  assert (noops (obj w) ⊆ noops (obj w5)) as Hn5 by done.
  assert (the_logger w5 "dnf" = the_logger w4 "dnf") as Hl5 by done.
  rewrite <- Hl5 in Hl2. clearbody w5. clear dependent w4.
  run_step (Logger_addHandler "dnf" (Some (length (handlers w)))) w5 tt w6.
  assert (handlers w6 = handlers w ++ [stdout_sink INFO]) as Hh6 by done.
  assert (noops (obj w) ⊆ noops (obj w6)) as Hn6 by done.
  assert (l_level (the_logger w6 "dnf") = TRACE ∧
          Some (length (handlers w)) ∈ l_handlers (the_logger w6 "dnf"))
    as [Hl6 Hin6].
  { unfold w6, Logger_addHandler. rewrite the_logger_update. simpl.
    split; [done|]. case_decide; [done|]. set_solver. }
  clearbody w6. clear dependent w5.
  run_step (set_stdout_handler (length (handlers w))) w6 tt w7.
  assert (handlers w7 = handlers w ++ [stdout_sink INFO]) as Hh7 by done.
  assert (noops (obj w) ⊆ noops (obj w7)) as Hn7 by done.
  assert (stdout_handler (obj w7) = Some (length (handlers w))) as Ho7 by done.
  assert (the_logger w7 "dnf" = the_logger w6 "dnf") as Hl7 by done.
  rewrite <- Hl7 in Hl6, Hin6. clearbody w7. clear dependent w6.
  (* stderr *)
  run_step (new_Handler (StreamHandler sys_stderr)) w7 (length (handlers w7)) w8.
  assert (length (handlers w7) = S (length (handlers w))) as Hlen
    by (rewrite Hh7, length_app; simpl; lia).
  assert (handlers w8 =
          (handlers w ++ [stdout_sink INFO]) ++
          [Build_Handler (StreamHandler sys_stderr) NOTSET [] None])
    as Hh8 by (simpl; by rewrite Hh7).
  assert (noops (obj w) ⊆ noops (obj w8)) as Hn8 by done.
  assert (stdout_handler (obj w8) = Some (length (handlers w))) as Ho8 by done.
  assert (the_logger w8 "dnf" = the_logger w7 "dnf") as Hl8 by done.
  rewrite <- Hl8 in Hl6, Hin6.
  assert (length (handlers w7) = length (handlers w ++ [stdout_sink INFO])) as Hlen'
    by by rewrite Hh7.
  clearbody w8. 
  run_step (Handler_setLevel (length (handlers w7)) WARNING) w8 tt w9.
  assert (handlers w9 = (handlers w ++ [stdout_sink INFO]) ++ [stderr_sink WARNING])
    as Hh9 by (simpl; rewrite Hh8, Hlen'; apply update_middle).
  assert (noops (obj w) ⊆ noops (obj w9)) as Hn9 by done.
  assert (stdout_handler (obj w9) = Some (length (handlers w))) as Ho9 by done.
  assert (the_logger w9 "dnf" = the_logger w8 "dnf") as Hl9 by done.
  rewrite <- Hl9 in Hl6, Hin6. clearbody w9. clear dependent w8.
  run_step (Logger_addHandler "dnf" (Some (length (handlers w7)))) w9 tt w10.
  assert (handlers w10 = (handlers w ++ [stdout_sink INFO]) ++ [stderr_sink WARNING])
    as Hh10 by done.
  assert (noops (obj w) ⊆ noops (obj w10)) as Hn10 by done.
  assert (stdout_handler (obj w10) = Some (length (handlers w))) as Ho10 by done.
  assert (l_level (the_logger w10 "dnf") = TRACE ∧
          Some (length (handlers w)) ∈ l_handlers (the_logger w10 "dnf") ∧
          Some (length (handlers w7)) ∈ l_handlers (the_logger w10 "dnf"))
    as (Hl10 & Hin10 & Hin10').
  { unfold w10, Logger_addHandler. rewrite the_logger_update. simpl.
    split; [done|]. case_decide; [done|]. set_solver. }
  clearbody w10. clear dependent w9.
  exists (exec (set_stderr_handler (length (handlers w7))) w10).
  rewrite Hlen in *. rewrite <- app_assoc in Hh10.
  split; [reflexivity|]. simpl. done.
Qed.

Lemma presetup_std_ok (w w1 : World) :
  Logging_ok w →
  _presetup w = (Ok tt, w1) →
  ∃ hout herr, std_ok w1 hout herr.
Proof.
  intros Hok Hrun. unfold _presetup in Hrun.
  destruct (decide ("_presetup" ∈ noops (obj w))) as [Hin|Hout].
  - rewrite method_noop in Hrun by done. injection Hrun as <-. by apply Hok.
  - rewrite method_armed in Hrun by done. unfold only_once, swan_song in Hrun.
    destruct (presetup_body_run w) as (w' & Hbody & Hh & Ho & He & _).
    rewrite (bind_run _ _ _ _ _ Hbody) in Hrun. injection Hrun as <-.
    exists (length (handlers w)), (S (length (handlers w))).
    repeat split; simpl; try done; try lia.
    + exists (stdout_sink INFO). split; [|by split].
      rewrite Hh. by apply list_lookup_middle.
    + exists (stderr_sink WARNING). split; [|by split].
      rewrite Hh.
      replace (handlers w ++ [stdout_sink INFO; stderr_sink WARNING])
        with ((handlers w ++ [stdout_sink INFO]) ++ [stderr_sink WARNING])
        by by rewrite <- app_assoc.
      apply list_lookup_middle. rewrite length_app. simpl. lia.
Qed.

Lemma ext_std_ok (w w' : World) (hout herr : nat) :
  ext w w' → std_ok w hout herr → std_ok w' hout herr.
Proof.
  intros (Ho & He & _ & Hh) (Hout & Herr & Hne & (hd1 & Hl1 & Hs1) & (hd2 & Hl2 & Hs2)).
  repeat split; try congruence.
  - destruct (Hh _ _ Hl1) as (hd1' & Hl1' & Hs1').
    exists hd1'. split; [done|]. by eapply same_sink_trans.
  - destruct (Hh _ _ Hl2) as (hd2' & Hl2' & Hs2').
    exists hd2'. split; [done|]. by eapply same_sink_trans.
Qed.

(** The last three statements of [_setup] set the two levels and switch
    [raiseExceptions] off. *)
Lemma setup_end_run (verbose_level error_level : Z) (w : World) (hout herr : nat) :
  std_ok w hout herr →
  ∃ w' hd_out hd_err,
    setup_end verbose_level error_level w = (Ok tt, w') ∧
    obj w' = obj w ∧
    raiseExceptions w' = false ∧
    handlers w' !! hout = Some hd_out ∧
    handlers w' !! herr = Some hd_err ∧
    same_sink (stdout_sink NOTSET) hd_out ∧ h_level hd_out = verbose_level ∧
    same_sink (stderr_sink NOTSET) hd_err ∧ h_level hd_err = error_level.
Proof.
  intros (Hout & Herr & Hne & (hd1 & Hl1 & Hk1 & Hf1) & (hd2 & Hl2 & Hk2 & Hf2)).
  pose proof (lookup_lt_Some _ _ _ Hl1) as Hlt1.
  pose proof (lookup_lt_Some _ _ _ Hl2) as Hlt2.
  unfold setup_end, stdout_setLevel, stderr_setLevel, Handler_setLevel,
    update_handler, modify, get_world.
  unfold mbind, M_bind, mret, M_ret. simpl.
  rewrite Hout. simpl. rewrite Herr. simpl.
  eexists _, _, _. split; [reflexivity|]. simpl.
  rewrite Hl1. rewrite list_lookup_insert_ne by done. rewrite Hl2.
  split; [done|]. split; [done|].
  split. { rewrite list_lookup_insert_ne by done.
           by apply list_lookup_insert_eq. }
  split. { apply list_lookup_insert_eq. by rewrite length_insert. }
  by repeat split.
Qed.

(** ** The console levels after [_setup] *)



(** ** Thresholds *)

Lemma filter_passes (f : _MaxLevelFilter) (record : LogRecord) :
  negb (filter f record =? 0) = true ↔ levelno record < max_level f.
Proof.
  unfold filter. rewrite Z.geb_leb.
  destruct (Z.leb_spec (max_level f) (levelno record)); simpl; split;
    try done; lia.
Qed.

(** A logger whose level is set is its own threshold. *)
Lemma getEffectiveLevel_set (w : World) (logger : string) :
  l_level (the_logger w logger) ≠ NOTSET →
  getEffectiveLevel w logger = l_level (the_logger w logger).
Proof.
  intros Hset. unfold getEffectiveLevel, chain. simpl.
  by destruct (Z.eqb_spec (l_level (the_logger w logger)) 0).
Qed.

Lemma isEnabledFor_iff (w : World) (logger : string) (level : Z) :
  isEnabledFor w logger level = true ↔ getEffectiveLevel w logger ≤ level.
Proof. unfold isEnabledFor. rewrite Z.geb_leb. apply Z.leb_le. Qed.

Lemma delivers_bounded (hd : Handler) (bound : Z) (record : LogRecord) :
  h_filters hd = [{| max_level := bound |}] →
  delivers hd record = true ↔ h_level hd ≤ levelno record < bound.
Proof.
  intros Hf. unfold delivers, Filterer_filter. rewrite Hf. simpl.
  rewrite andb_true_r, andb_true_iff, filter_passes, Z.geb_leb, Z.leb_le.
  done.
Qed.

Lemma delivers_unbounded (hd : Handler) (record : LogRecord) :
  h_filters hd = [] →
  delivers hd record = true ↔ h_level hd ≤ levelno record.
Proof.
  intros Hf. unfold delivers, Filterer_filter. rewrite Hf. simpl.
  by rewrite andb_true_r, Z.geb_leb, Z.leb_le.
Qed.

(** C5, as stated, fails: after [_presetup] a [DEBUG] record logged on
    ["dnf"] passes the stream's threshold and lies strictly below the bound
    [WARNING] of the standard output handler, yet that handler does not
    deliver it, because the record is below the handler's own level
    [INFO]. *)
Lemma debug_record_does_not_reach_stdout :
  let record := {| levelno := DEBUG; msg := VStr "cache hit" |} in
  ∃ hd,
    stdout_handler (obj presetup_done) = Some 0%nat ∧
    handlers presetup_done !! 0%nat = Some hd ∧
    h_filters hd = [{| max_level := WARNING |}] ∧
    levelno record < WARNING ∧
    isEnabledFor presetup_done "dnf" (levelno record) = true ∧
    delivers hd record = false ∧
    ¬ (delivers hd record = true ↔ levelno record < WARNING) ∧
    received (exec (Logger_log "dnf" DEBUG (VStr "cache hit")) presetup_done) 0%nat = [].
Proof.
  exists (stdout_sink INFO).
  repeat split; try (vm_compute; reflexivity).
  intros [_ Hdeliver]. 
  assert (delivers (stdout_sink INFO)
            {| levelno := DEBUG; msg := VStr "cache hit" |} = true) as H
    by (apply Hdeliver; reflexivity).
  vm_compute in H. discriminate H.
Qed.

(** C5, amended: a stream forwards a record to its handlers iff the
    record's rank is at least the stream's threshold (equality delivers);
    the threshold is the stream's own level when that is set.  A handler
    with an exclusive upper bound delivers a record iff the record's rank is
    at least the handler's own level and strictly below the bound, and a
    handler without a bound iff the rank is at least its level.  For the
    handlers [_presetup] attaches to ["dnf"] (threshold [TRACE]): the
    standard output handler, bounded at [WARNING], delivers no record of
    rank [WARNING] or above whatever its level, and the standard error
    handler, at level [WARNING], delivers every such record. *)
Theorem threshold_filtering (w : World) :
  (∀ logger level message,
     Logger_log logger level message w =
       if decide (getEffectiveLevel w logger ≤ level)
       then callHandlers {| levelno := level; msg := message |} (chain w logger) w
       else (Ok tt, w)) ∧
  (∀ logger,
     l_level (the_logger w logger) ≠ NOTSET →
     getEffectiveLevel w logger = l_level (the_logger w logger)) ∧
  (∀ hd bound record,
     h_filters hd = [{| max_level := bound |}] →
     delivers hd record = true ↔ h_level hd ≤ levelno record < bound) ∧
  (∀ hd record,
     h_filters hd = [] →
     delivers hd record = true ↔ h_level hd ≤ levelno record) ∧
  ("_presetup" ∉ noops (obj w) →
   ∃ w' hout herr,
     _presetup w = (Ok tt, w') ∧
     stdout_handler (obj w') = Some hout ∧
     stderr_handler (obj w') = Some herr ∧
     handlers w' !! hout = Some (stdout_sink INFO) ∧
     handlers w' !! herr = Some (stderr_sink WARNING) ∧
     getEffectiveLevel w' "dnf" = TRACE ∧
     Some hout ∈ l_handlers (the_logger w' "dnf") ∧
     Some herr ∈ l_handlers (the_logger w' "dnf") ∧
     ∀ record,
       WARNING ≤ levelno record →
       isEnabledFor w' "dnf" (levelno record) = true ∧
       (∀ level, delivers (stdout_sink level) record = false) ∧
       delivers (stderr_sink WARNING) record = true).
Proof.
  split; [|split; [|split; [|split]]].
  - intros logger level message.
    unfold Logger_log, get_world, mbind, M_bind.
    pose proof (isEnabledFor_iff w logger level) as Hen.
    destruct (decide (getEffectiveLevel w logger ≤ level)) as [Hle|Hgt].
    + by rewrite (proj2 Hen Hle).
    + destruct (isEnabledFor w logger level); [|done].
      exfalso. apply Hgt. by apply Hen.
  - apply getEffectiveLevel_set.
  - apply delivers_bounded.
  - apply delivers_unbounded.
  - intros Harmed. unfold _presetup. rewrite method_armed by done.
    unfold only_once, swan_song.
    destruct (presetup_body_run w)
      as (w' & Hbody & Hh & Ho & He & _ & Hlevel & Hin1 & Hin2).
    rewrite (bind_run _ _ _ _ _ Hbody).
    exists (exec (setattr_noop "_presetup") w'),
      (length (handlers w)), (S (length (handlers w))).
    assert (the_logger (exec (setattr_noop "_presetup") w') "dnf"
            = the_logger w' "dnf") as Hsame by done.
    assert (getEffectiveLevel (exec (setattr_noop "_presetup") w') "dnf" = TRACE)
      as Heff by (rewrite getEffectiveLevel_set; by rewrite Hsame, Hlevel).
    rewrite Hsame.
    split; [done|]. split; [done|]. split; [done|].
    split. { simpl. rewrite Hh. by apply list_lookup_middle. }
    split.
    { simpl. rewrite Hh.
      replace (handlers w ++ [stdout_sink INFO; stderr_sink WARNING])
        with ((handlers w ++ [stdout_sink INFO]) ++ [stderr_sink WARNING])
        by by rewrite <- app_assoc.
      apply list_lookup_middle. rewrite length_app. simpl. lia. }
    split; [done|]. split; [done|]. split; [done|].
    intros record Hrank. split; [|split].
    + apply isEnabledFor_iff. rewrite Heff. unfold TRACE, WARNING in *. lia.
    + intros level.
      destruct (delivers (stdout_sink level) record) eqn:Hd; [|done].
      apply (delivers_bounded _ WARNING) in Hd; [|done]. lia.
    + by apply delivers_unbounded.
Qed.

Lemma threshold_filtering_witness :
  let warning := {| levelno := WARNING; msg := VStr "disk slow" |} in
  let after := exec (Logger_log "dnf" WARNING (VStr "disk slow")) presetup_done in
  delivers (stdout_sink INFO) warning = false ∧
  delivers (stderr_sink WARNING) warning = true ∧
  received after 0%nat = [] ∧
  received after 1%nat = [warning].
Proof.
  assert ("_presetup" ∉ noops (obj imported)) as Harmed.
  { intros Hin. vm_compute in Hin. discriminate Hin. }
  destruct (threshold_filtering imported) as (_ & _ & _ & _ & Hconsole).
  destruct (Hconsole Harmed) as (w' & hout & herr & _ & _ & _ & _ & _ & _ & _ & _ & Hrec).
  destruct (Hrec {| levelno := WARNING; msg := VStr "disk slow" |} ltac:(simpl; lia))
    as (_ & Hout & Herr).
  split; [apply Hout|]. split; [apply Herr|].
  split; vm_compute; reflexivity.
Defined.

(** ** Further properties *)

(** A level that is not a key of the table makes [write] raise [KeyError]
    before anything is logged. *)
Lemma write_unknown_level_raises
    (libdnf : libdnf_Logger) (self : LibdnfLoggerCB) (source native : Z)
    (time pid message : PyVal) (w : World) :
  _LIBDNF_TO_DNF_LOGLEVEL_MAPPING libdnf !! native = None →
  write libdnf self source [VInt native; message] w = (Raise KeyError, w) ∧
  write libdnf self source [time; pid; VInt native; message] w = (Raise KeyError, w).
Proof.
  intros Hnone. unfold write, mapping_getitem. simpl.
  unfold mbind, M_bind, mret, M_ret. simpl. by rewrite Hnone.
Qed.

Lemma write_unknown_level_raises_witness :
  write sample_libdnf {| _logger := "dnf" |} 0 [VInt 7; VStr "disk slow"] configured =
    (Raise KeyError, configured).
Proof.
  exact (proj1 (write_unknown_level_raises sample_libdnf {| _logger := "dnf" |}
                  0 7 (VInt 0) (VInt 0) (VStr "disk slow") configured eq_refl)).
Defined.

(** [only_once] is kept per object: on a [Logging] object whose [_presetup]
    has not run, [_presetup] builds and attaches two more console handlers,
    whatever the process has configured before. *)
Lemma presetup_on_a_new_object (w : World) :
  "_presetup" ∉ noops (obj w) →
  ∃ w', _presetup w = (Ok tt, w') ∧
        handlers w' = handlers w ++ [stdout_sink INFO; stderr_sink WARNING].
Proof.
  intros Harmed. unfold _presetup. rewrite method_armed by done.
  unfold only_once, swan_song.
  destruct (presetup_body_run w) as (w' & Hbody & Hh & _).
  rewrite (bind_run _ _ _ _ _ Hbody).
  by exists (exec (setattr_noop "_presetup") w').
Qed.

Lemma presetup_on_a_new_object_witness :
  ∃ w', _presetup second_object = (Ok tt, w') ∧
        length (handlers w') = 6%nat ∧
        handlers w' !! 4%nat = Some (stdout_sink INFO) ∧
        handlers w' !! 5%nat = Some (stderr_sink WARNING).
Proof.
  assert ("_presetup" ∉ noops (obj second_object)) as Harmed.
  { intros Hin. vm_compute in Hin. discriminate Hin. }
  destruct (presetup_on_a_new_object second_object Harmed) as (w' & Hrun & Hh).
  exists w'. split; [exact Hrun|]. rewrite Hh.
  repeat split; vm_compute; reflexivity.
Defined.

(** ** The dials and the console *)

Lemma verbose_closed_form (v : Z) :
  0 ≤ v ≤ 10 → _cfg_verbose_val2level v = Ok (verbose_level_of v).
Proof.
  intros Hv. rewrite (verbose_in_range v Hv). unfold dict_get, verbose_level_of.
  destruct (Z_le_gt_dec v 6) as [Hle|Hgt].
  - assert (v = 0 ∨ v = 1 ∨ v = 2 ∨ v = 3 ∨ v = 4 ∨ v = 5 ∨ v = 6) as Hc by lia.
    destruct Hc as [->|[->|[->|[->|[->|[->| ->]]]]]]; reflexivity.
  - rewrite verbose_lookup_large by lia. simpl.
    destruct (Z.eqb_spec v 0); [lia|].
    destruct (Z.leb_spec v 2); [lia|].
    destruct (Z.leb_spec v 6); [lia|]. done.
Qed.

Lemma error_closed_form (e : Z) :
  0 ≤ e ≤ 10 → _cfg_err_val2level e = Ok (error_level_of e).
Proof.
  intros He. rewrite (err_in_range e He). unfold dict_get, error_level_of.
  destruct (Z_le_gt_dec e 2) as [Hle|Hgt].
  - assert (e = 0 ∨ e = 1 ∨ e = 2) as Hc by lia.
    destruct Hc as [->|[->| ->]]; reflexivity.
  - rewrite err_lookup_large by lia. simpl.
    destruct (Z.eqb_spec e 0); [lia|].
    destruct (Z.eqb_spec e 1); [lia|].
    destruct (Z.eqb_spec e 2); [lia|]. done.
Qed.

(** Turning a dial up never raises the threshold it selects: between two
    dial values in range, the larger one gives a level that is at most the
    level of the smaller one, for the verbosity dial and for the error
    dial. *)
Theorem dials_are_antitone (a b : Z) :
  0 ≤ a → a ≤ b → b ≤ 10 →
  ∃ la lb ea eb,
    _cfg_verbose_val2level a = Ok la ∧ _cfg_verbose_val2level b = Ok lb ∧
    _cfg_err_val2level a = Ok ea ∧ _cfg_err_val2level b = Ok eb ∧
    lb ≤ la ∧ eb ≤ ea.
Proof.
  intros Ha Hab Hb.
  exists (verbose_level_of a), (verbose_level_of b),
    (error_level_of a), (error_level_of b).
  rewrite !verbose_closed_form, !error_closed_form by lia.
  repeat split; try done.
  - unfold verbose_level_of, SUPERCRITICAL, INFO, DEBUG, DDEBUG.
    destruct (Z.eqb_spec a 0), (Z.leb_spec a 2), (Z.leb_spec a 6),
      (Z.eqb_spec b 0), (Z.leb_spec b 2), (Z.leb_spec b 6); lia.
  - unfold error_level_of, SUPERCRITICAL, CRITICAL, ERROR, WARNING.
    destruct (Z.eqb_spec a 0), (Z.eqb_spec a 1), (Z.eqb_spec a 2),
      (Z.eqb_spec b 0), (Z.eqb_spec b 1), (Z.eqb_spec b 2); lia.
Qed.

Lemma dials_are_antitone_witness :
  ∃ la lb ea eb,
    _cfg_verbose_val2level 2 = Ok la ∧ _cfg_verbose_val2level 7 = Ok lb ∧
    _cfg_err_val2level 2 = Ok ea ∧ _cfg_err_val2level 7 = Ok eb ∧
    lb ≤ la ∧ eb ≤ ea.
Proof. apply (dials_are_antitone 2 7); lia. Defined.

(** Whatever the two dials are set to, no record is delivered by both
    console handlers: the standard output handler stops below [WARNING] and
    every level the error dial selects is [WARNING] or above. *)
Theorem console_handlers_never_both (v e lv le : Z) (record : LogRecord) :
  _cfg_verbose_val2level v = Ok lv →
  _cfg_err_val2level e = Ok le →
  ¬ (delivers (stdout_sink lv) record = true ∧
     delivers (stderr_sink le) record = true).
Proof.
  intros Hv He [Hout Herr].
  assert (0 ≤ e ≤ 10) as Hrange.
  { apply in_range_test. unfold _cfg_err_val2level in He.
    by destruct ((0 <=? e) && (e <=? 10)). }
  rewrite (error_closed_form e Hrange) in He. injection He as <-.
  apply (delivers_bounded _ WARNING) in Hout; [|done].
  apply delivers_unbounded in Herr; [|done]. simpl in *.
  unfold error_level_of, SUPERCRITICAL, CRITICAL, ERROR, WARNING in *.
  destruct (Z.eqb_spec e 0), (Z.eqb_spec e 1), (Z.eqb_spec e 2); lia.
Qed.

Lemma console_handlers_never_both_witness :
  ¬ (delivers (stdout_sink DDEBUG) {| levelno := WARNING; msg := VStr "disk slow" |} = true ∧
     delivers (stderr_sink WARNING) {| levelno := WARNING; msg := VStr "disk slow" |} = true).
Proof.
  apply (console_handlers_never_both 10 3); reflexivity.
Defined.

(** ** More on [emit] *)






(** The events of one attempt, whatever its outcome, are one of seven
    runs. *)
Lemma try_body_shape (a : Attempt) (record : LogRecord) :
  fst (try_body a record) ∈
    [ []; [Locked]; [Locked; RolledOver]; [Locked; Unlocked];
      [Locked; RolledOver; Unlocked]; [Written record];
      [Locked; RolledOver; Unlocked; Written record] ].
Proof.
  unfold try_body, with_rotate_lock.
  destruct (shouldRollover a) as [[|]|?]; simpl.
  - destruct (lock_enter a), (doRollover a), (lock_exit a); simpl;
      try destruct (FileHandler_emit a); simpl; set_solver.
  - destruct (FileHandler_emit a); simpl; set_solver.
  - set_solver.
Qed.

Lemma rollovers_locked_after (ev rest : list Event) (record : LogRecord) (b : bool) :
  ev ∈ [ []; [Locked]; [Locked; RolledOver]; [Locked; Unlocked];
         [Locked; RolledOver; Unlocked]; [Written record];
         [Locked; RolledOver; Unlocked; Written record] ] →
  rollovers_locked false rest = true →
  rollovers_locked b (ev ++ Slept backoff :: rest) = true ∧
  rollovers_locked b (ev ++ [HandledError record]) = true ∧
  rollovers_locked b ev = true.
Proof.
  intros Hev Hrest.
  repeat (apply elem_of_cons in Hev as [->|Hev]; [by simpl; rewrite ?Hrest|]).
  by apply elem_of_nil in Hev.
Qed.

(** [doRollover] runs only under the rotation lock: in every run of [emit],
    over all its attempts, each rollover comes directly after the lock was
    taken. *)
Theorem emit_rolls_over_under_the_lock
    (env : nat → Attempt) (record : LogRecord) (k fuel : nat) :
  rollovers_locked false (fst (emit env record k fuel)) = true.
Proof.
  revert k. induction fuel as [|fuel IH]; intros k; [done|]. simpl.
  pose proof (try_body_shape (env k) record) as Hshape.
  destruct (try_body (env k) record) as [ev [[]|e]]; simpl in *.
  - by apply (rollovers_locked_after ev [] record false).
  - destruct (is_lock_error e).
    + specialize (IH (S k)).
      destruct (emit env record (S k) fuel) as [ev' out]. simpl in *.
      by apply (rollovers_locked_after ev ev' record false).
    + destruct (is_Exception e); simpl.
      * by apply (rollovers_locked_after ev [] record false).
      * by apply (rollovers_locked_after ev [] record false).
Qed.

(** Whether one attempt ends in a lock error can be told from its
    outcome. *)
Lemma contended_dec (a : Attempt) (record : LogRecord) :
  contended a record ∨ ¬ contended a record.
Proof.
  unfold contended. destruct (snd (try_body a record)) as [[]|e].
  - right. intros (e & He & _). discriminate He.
  - destruct (is_lock_error e) eqn:Hl.
    + left. by exists e.
    + right. intros (e' & He' & Hl'). injection He' as <-. congruence.
Qed.

Lemma emit_step_contended (env : nat → Attempt) (record : LogRecord) (k fuel : nat) :
  contended (env k) record →
  snd (emit env record k (S fuel)) = snd (emit env record (S k) fuel).
Proof.
  intros (e & He & Hl). simpl.
  destruct (try_body (env k) record) as [ev res]. simpl in He. subst res.
  rewrite Hl. by destruct (emit env record (S k) fuel).
Qed.

Lemma emit_step_settled (env : nat → Attempt) (record : LogRecord) (k fuel : nat) :
  ¬ contended (env k) record →
  snd (emit env record k (S fuel)) ≠ Retrying.
Proof.
  intros Hfree. simpl. unfold contended in Hfree.
  destruct (try_body (env k) record) as [ev [[]|e]]; simpl in *; [done|].
  destruct (is_lock_error e) eqn:Hl.
  - exfalso. apply Hfree. by exists e.
  - by destruct (is_Exception e).
Qed.

(** [emit] has no time-out: a call comes to an end (it returns, or an
    exception leaves it) exactly when one of its attempts does not end in a
    lock error; while every attempt is contended it goes on retrying. *)
Theorem emit_ends_iff_contention_ends (env : nat → Attempt) (record : LogRecord) :
  (∃ fuel, snd (emit env record 0 fuel) ≠ Retrying) ↔
  (∃ n, ¬ contended (env n) record).
Proof.
  split.
  - intros [fuel Hend].
    assert (∀ k, snd (emit env record k fuel) ≠ Retrying →
                 ∃ n, ¬ contended (env n) record) as Hgen; [|by apply (Hgen 0%nat)].
    clear Hend. induction fuel as [|fuel IH]; intros k Hend; [done|].
    destruct (contended_dec (env k) record) as [Hc|Hfree]; [|by exists k].
    rewrite (emit_step_contended _ _ _ _ Hc) in Hend. by apply (IH (S k)).
  - intros [n Hfree].
    assert (∀ m k, ¬ contended (env (k + m)%nat) record →
                   ∃ fuel, snd (emit env record k fuel) ≠ Retrying) as Hgen;
      [|by apply (Hgen n 0%nat)].
    clear n Hfree. induction m as [|m IH]; intros k Hfree.
    + rewrite Nat.add_0_r in Hfree. exists 1%nat.
      by apply emit_step_settled.
    + destruct (contended_dec (env k) record) as [Hc|Hfree'].
      * destruct (IH (S k)) as [fuel Hend].
        { by replace (S k + m)%nat with (k + S m)%nat by lia. }
        exists (S fuel). by rewrite (emit_step_contended _ _ _ _ Hc).
      * exists 1%nat. by apply emit_step_settled.
Qed.

(** ** What the set-up leaves alone *)

Lemma keeps_ret {X A} (proj : World → X) (a : A) : keeps proj (mret a : M A).
Proof. by intros w. Qed.

Lemma keeps_raise {X A} (proj : World → X) (e : exn) : keeps proj (raise e : M A).
Proof. by intros w. Qed.

Lemma keeps_lift {X A} (proj : World → X) (r : Result A) : keeps proj (lift r).
Proof. by intros w. Qed.

Lemma keeps_get_world {X} (proj : World → X) : keeps proj get_world.
Proof. by intros w. Qed.

Lemma keeps_deref {X} (proj : World → X) (r : option nat) : keeps proj (deref r).
Proof. by destruct r. Qed.

Lemma keeps_bind {X A B} (proj : World → X) (c : M A) (k : A → M B) :
  keeps proj c → (∀ a, keeps proj (k a)) → keeps proj (c ≫= k).
Proof.
  intros Hc Hk w. unfold mbind, M_bind.
  specialize (Hc w). destruct (c w) as [[a|e] w1]; simpl in *; [|done].
  by rewrite Hk.
Qed.

Lemma keeps_if {X A} (proj : World → X) (b : bool) (c1 c2 : M A) :
  keeps proj c1 → keeps proj c2 → keeps proj (if b then c1 else c2).
Proof. by destruct b. Qed.

Lemma keeps_modify {X} (proj : World → X) (f : World → World) :
  (∀ w, proj (f w) = proj w) → keeps proj (modify f).
Proof. intros Hf w. apply Hf. Qed.

Lemma keeps_method {X} (proj : World → X) (name : string) (c : M unit) :
  keeps proj c → keeps proj (method name c).
Proof.
  intros Hc. unfold method. apply keeps_bind; [apply keeps_get_world|].
  intros w. destruct (decide _); [apply keeps_ret|done].
Qed.

Lemma keeps_call_each {X} (proj : World → X) (record : LogRecord)
    (hs : list (option nat)) :
  (∀ f w, proj (set_emitted f w) = proj w) →
  keeps proj (call_each record hs).
Proof.
  intros Hproj. induction hs as [|h hs IH]; simpl; [apply keeps_ret|].
  apply keeps_bind; [|by intros _].
  unfold call_handler. apply keeps_bind; [apply keeps_deref|]. intros h'.
  apply keeps_bind; [apply keeps_get_world|]. intros w.
  destruct (handlers w !! h') as [hd|]; [|apply keeps_ret].
  apply keeps_if; [|apply keeps_ret]. apply keeps_modify. intros w'. apply Hproj.
Qed.

Lemma keeps_Logger_log {X} (proj : World → X) (logger : string) (level : Z)
    (message : PyVal) :
  (∀ f w, proj (set_emitted f w) = proj w) →
  keeps proj (Logger_log logger level message).
Proof.
  intros Hproj. unfold Logger_log.
  apply keeps_bind; [apply keeps_get_world|]. intros w.
  apply keeps_if; [|apply keeps_ret].
  induction (chain w logger) as [|l c IH]; simpl; [apply keeps_ret|].
  apply keeps_bind; [by apply keeps_call_each|]. intros _.
  apply keeps_if; [done|apply keeps_ret].
Qed.

(** Rebinding one method leaves the others as they are. *)
Lemma keeps_armed_setattr (name name' : string) :
  name ≠ name' → keeps (armed name) (setattr_noop name').
Proof.
  intros Hne w. unfold armed. simpl. apply bool_decide_ext. set_solver.
Qed.

(** The constant at the head of an application. *)
Ltac head_of t :=
  lazymatch t with
  | ?f _ => head_of f
  | _ => t
  end.

(** Takes a computation apart, by its syntax, down to the steps that change
    the state and checks that each leaves the part in question alone. *)
Ltac keeps_step :=
  lazymatch goal with
  | |- keeps _ (mret _) => apply keeps_ret
  | |- keeps _ noop => apply keeps_ret
  | |- keeps _ (raise _) => apply keeps_raise
  | |- keeps _ (lift _) => apply keeps_lift
  | |- keeps _ get_world => apply keeps_get_world
  | |- keeps _ (deref _) => apply keeps_deref
  | |- keeps _ (Logger_log _ _ _) => apply keeps_Logger_log; intros; reflexivity
  | |- keeps _ (method _ _) => apply keeps_method
  | |- keeps (armed _) (setattr_noop _) => apply keeps_armed_setattr; intros Heq; discriminate Heq
  | |- keeps _ (modify _) => apply keeps_modify; intros ?; reflexivity
  | |- keeps _ (_ ≫= _) => apply keeps_bind; [|intros ?]
  | |- keeps _ (if ?b then _ else _) => destruct b
  | |- keeps _ (match ?x with _ => _ end) => destruct x
  | |- keeps _ ?c => let h := head_of c in unfold h
  end.

Ltac keeps_steps := repeat keeps_step.



Lemma keeps_loggers_setup_end (verbose_level error_level : Z) :
  keeps loggers (setup_end verbose_level error_level).
Proof. unfold setup_end. keeps_steps. Qed.

Lemma keeps_librepo_presetup : keeps librepo_log _presetup.
Proof. unfold _presetup. keeps_steps. Qed.

Lemma keeps_librepo_before (const : dnf_const) (logdir : string)
    (log_size log_rotate : Z) :
  keeps librepo_log (setup_before_librepo const logdir log_size log_rotate).
Proof. unfold setup_before_librepo. keeps_steps. Qed.

Lemma keeps_librepo_rpm (const : dnf_const) (logdir : string)
    (log_size log_rotate : Z) :
  keeps librepo_log (setup_rpm_part const logdir log_size log_rotate).
Proof. unfold setup_rpm_part. keeps_steps. Qed.

Lemma keeps_librepo_attach : keeps librepo_log setup_attach_console.
Proof. unfold setup_attach_console. keeps_steps. Qed.

Lemma keeps_librepo_setup_end (verbose_level error_level : Z) :
  keeps librepo_log (setup_end verbose_level error_level).
Proof. unfold setup_end. keeps_steps. Qed.

Lemma keeps_armed_librepo_presetup :
  keeps (armed "_setup_librepo_logger") _presetup.
Proof. unfold _presetup. keeps_steps. Qed.

Lemma keeps_armed_librepo_before (const : dnf_const) (logdir : string)
    (log_size log_rotate : Z) :
  keeps (armed "_setup_librepo_logger")
        (setup_before_librepo const logdir log_size log_rotate).
Proof. unfold setup_before_librepo. keeps_steps. Qed.

(** [_setup]'s body, statement by statement. *)
Lemma setup_body_steps (const : dnf_const) (verbose_level error_level : Z)
    (logdir : string) (log_size log_rotate : Z) (w : World) :
  _setup_body const verbose_level error_level logdir log_size log_rotate w =
  (_presetup ;;
   setup_before_librepo const logdir log_size log_rotate ;;
   _setup_librepo_logger const logdir verbose_level None ;;
   setup_rpm_part const logdir log_size log_rotate ;;
   setup_attach_console ;;
   setup_end verbose_level error_level) w.
Proof.
  unfold _setup_body, setup_before_librepo, setup_rpm_part,
    setup_attach_console, setup_end.
  unfold mbind, M_bind, mret, M_ret.
  repeat (match goal with
          | |- context [match ?x with pair _ _ => _ end] =>
              destruct x as [[?|?] ?]
          end; try reflexivity).
Qed.

(** *** Switched-off handlers stay silent *)

Lemma quiet_ret {A} (h : nat) (a : A) : quiet h (mret a : M A).
Proof. by intros w Hm. Qed.

Lemma quiet_raise {A} (h : nat) (e : exn) : quiet h (raise e : M A).
Proof. by intros w Hm. Qed.

Lemma quiet_get_world (h : nat) : quiet h get_world.
Proof. by intros w Hm. Qed.

Lemma quiet_deref (h : nat) (r : option nat) : quiet h (deref r).
Proof. by destruct r. Qed.

Lemma quiet_bind {A B} (h : nat) (c : M A) (k : A → M B) :
  quiet h c → (∀ a, quiet h (k a)) → quiet h (c ≫= k).
Proof.
  intros Hc Hk w Hm. unfold mbind, M_bind.
  destruct (Hc w Hm) as [Hm1 Hr1].
  destruct (c w) as [[a|e] w1]; simpl in *; [|done].
  destruct (Hk a w1 Hm1) as [Hm2 Hr2]. split; [done|congruence].
Qed.

Lemma quiet_same (h : nat) (f : World → World) :
  (∀ w, handlers (f w) = handlers w ∧ emitted (f w) = emitted w) →
  quiet h (modify f).
Proof.
  intros Hf w Hm. destruct (Hf w) as [Hh He]. simpl.
  unfold muted, received. by rewrite Hh, He.
Qed.

Lemma quiet_method (h : nat) (name : string) (c : M unit) :
  quiet h c → quiet h (method name c).
Proof.
  intros Hc. unfold method. apply quiet_bind; [apply quiet_get_world|].
  intros w. destruct (decide _); [apply quiet_ret|done].
Qed.

Lemma quiet_new_Handler (h : nat) (kind : HandlerKind) : quiet h (new_Handler kind).
Proof.
  intros w (hd & Hl & Hlevel). simpl. split; [|done].
  exists hd. split; [|done]. simpl. by apply lookup_app_l_Some.
Qed.

Lemma quiet_Handler_setFormatter (h h' : nat) (f : Formatter) :
  quiet h (Handler_setFormatter h' f).
Proof.
  intros w (hd & Hl & Hlevel). simpl. split; [|done].
  unfold muted. simpl.
  destruct (handlers w !! h') as [hd'|] eqn:Hh'; [|by exists hd].
  destruct (decide (h' = h)) as [->|Hne].
  - assert (hd' = hd) as -> by congruence.
    eexists. split.
    + apply list_lookup_insert_eq. by eapply lookup_lt_Some.
    + exact Hlevel.
  - exists hd. split; [|done]. by rewrite list_lookup_insert_ne.
Qed.

Lemma received_other (w : World) (h h' : nat) (record : LogRecord) :
  h' ≠ h →
  received (set_emitted (λ es, es ++ [(h', record)]) w) h = received w h.
Proof.
  intros Hne. unfold received. simpl. rewrite omap_app. simpl.
  rewrite decide_False by done. by rewrite app_nil_r.
Qed.

(** A switched-off handler takes no record below [SUPERCRITICAL]. *)
Lemma quiet_call_handler (h : nat) (record : LogRecord) (hdlr : option nat) :
  levelno record < SUPERCRITICAL →
  quiet h (call_handler record hdlr).
Proof.
  intros Hlow w (hd & Hl & Hlevel). unfold call_handler.
  destruct hdlr as [h'|]; simpl; [|split; [by exists hd|done]].
  unfold mbind, M_bind, mret, M_ret, get_world. simpl.
  destruct (handlers w !! h') as [hd'|] eqn:Hh'; [|split; [by exists hd|done]].
  destruct (delivers hd' record) eqn:Hd; simpl; [|split; [by exists hd|done]].
  split; [by exists hd|].
  apply received_other. intros ->.
  assert (hd' = hd) as -> by congruence.
  unfold delivers in Hd. apply andb_true_iff in Hd as [Hd _].
  rewrite Z.geb_leb in Hd. apply Z.leb_le in Hd. lia.
Qed.

Lemma quiet_call_each (h : nat) (record : LogRecord) (hs : list (option nat)) :
  levelno record < SUPERCRITICAL →
  quiet h (call_each record hs).
Proof.
  intros Hlow. induction hs as [|h' hs IH]; simpl; [apply quiet_ret|].
  apply quiet_bind; [by apply quiet_call_handler|]. by intros _.
Qed.

Lemma quiet_Logger_log (h : nat) (logger : string) (level : Z) (message : PyVal) :
  level < SUPERCRITICAL →
  quiet h (Logger_log logger level message).
Proof.
  intros Hlow. unfold Logger_log.
  apply quiet_bind; [apply quiet_get_world|]. intros w.
  destruct (isEnabledFor w logger level); [|apply quiet_ret].
  induction (chain w logger) as [|l c IH]; simpl; [apply quiet_ret|].
  apply quiet_bind; [by apply quiet_call_each|]. intros _.
  destruct (l_propagate l); [done|apply quiet_ret].
Qed.

Ltac quiet_step :=
  lazymatch goal with
  | |- quiet _ (mret _) => apply quiet_ret
  | |- quiet _ noop => apply quiet_ret
  | |- quiet _ (raise _) => apply quiet_raise
  | |- quiet _ get_world => apply quiet_get_world
  | |- quiet _ (deref _) => apply quiet_deref
  | |- quiet _ (Logger_log _ _ _) => apply quiet_Logger_log; reflexivity
  | |- quiet _ (method _ _) => apply quiet_method
  | |- quiet _ (new_Handler _) => apply quiet_new_Handler
  | |- quiet _ (Handler_setFormatter _ _) => apply quiet_Handler_setFormatter
  | |- quiet _ (modify _) => apply quiet_same; intros ?; split; reflexivity
  | |- quiet _ (_ ≫= _) => apply quiet_bind; [|intros ?]
  | |- quiet _ (if ?b then _ else _) => destruct b
  | |- quiet _ (match ?x with _ => _ end) => destruct x
  | |- quiet _ ?c => let hd := head_of c in unfold hd
  end.

Ltac quiet_steps := repeat quiet_step.

Lemma quiet_setup_dnf_logger (h : nat) (const : dnf_const) (logdir : string)
    (log_size log_rotate : Z) :
  quiet h (_setup_dnf_logger const logdir log_size log_rotate None None).
Proof. quiet_steps. Qed.




(** ** The whole of [_setup] *)

Lemma frames_setup_before_librepo (const : dnf_const) (logdir : string)
    (log_size log_rotate : Z) :
  frames (setup_before_librepo const logdir log_size log_rotate).
Proof. unfold setup_before_librepo. frames_steps. Qed.

Lemma frames_setup_rpm_part (const : dnf_const) (logdir : string)
    (log_size log_rotate : Z) :
  frames (setup_rpm_part const logdir log_size log_rotate).
Proof. unfold setup_rpm_part. frames_steps. Qed.

Lemma frames_setup_attach_console : frames setup_attach_console.
Proof. unfold setup_attach_console. frames_steps. Qed.

(** A call of [_setup] that runs the body and returns has gone through
    every statement of the body. *)
Lemma setup_run (const : dnf_const) (verbose_level error_level : Z)
    (logdir : string) (log_size log_rotate : Z) (w w' : World) :
  "_setup" ∉ noops (obj w) →
  _setup const verbose_level error_level logdir log_size log_rotate w = (Ok tt, w') →
  ∃ w1 wa wb wc wd w2,
    _presetup w = (Ok tt, w1) ∧
    setup_before_librepo const logdir log_size log_rotate w1 = (Ok tt, wa) ∧
    _setup_librepo_logger const logdir verbose_level None wa = (Ok tt, wb) ∧
    setup_rpm_part const logdir log_size log_rotate wb = (Ok tt, wc) ∧
    setup_attach_console wc = (Ok tt, wd) ∧
    setup_end verbose_level error_level wd = (Ok tt, w2) ∧
    w' = exec (setattr_noop "_setup") w2.
Proof.
  intros Harmed Hrun. unfold _setup in Hrun.
  rewrite method_armed in Hrun by done. unfold only_once, swan_song in Hrun.
  apply bind_Ok in Hrun as ([] & w2 & Hbody & Hset). injection Hset as <-.
  rewrite setup_body_steps in Hbody.
  apply bind_Ok in Hbody as ([] & w1 & H1 & Hbody).
  apply bind_Ok in Hbody as ([] & wa & Ha & Hbody).
  apply bind_Ok in Hbody as ([] & wb & Hb & Hbody).
  apply bind_Ok in Hbody as ([] & wc & Hc & Hbody).
  apply bind_Ok in Hbody as ([] & wd & Hd & Hbody).
  by exists w1, wa, wb, wc, wd, w2.
Qed.

(** From a step's equation to the extension it makes. *)
Lemma frames_run {A} (c : M A) (w w' : World) (r : Result A) :
  frames c → c w = (r, w') → ext w w'.
Proof. intros Hc Hrun. specialize (Hc w). by rewrite Hrun in Hc. Qed.

Lemma keeps_run {X A} (proj : World → X) (c : M A) (w w' : World) (r : Result A) :
  keeps proj c → c w = (r, w') → proj w' = proj w.
Proof. intros Hc Hrun. specialize (Hc w). by rewrite Hrun in Hc. Qed.


Lemma conf_dials_checked (const : dnf_const) (conf : Conf) (w : World) :
  ¬ (0 ≤ debuglevel conf ≤ 10 ∧ 0 ≤ errorlevel conf ≤ 10) →
  _setup_from_dnf_conf const conf w = (Raise AssertionError, w).
Proof.
  intros Hbad. unfold _setup_from_dnf_conf.
  destruct (decide (0 ≤ debuglevel conf ≤ 10)) as [Hd|Hd].
  - rewrite (verbose_closed_form _ Hd).
    destruct (decide (0 ≤ errorlevel conf ≤ 10)) as [He|He]; [tauto|].
    unfold _cfg_err_val2level.
    by rewrite (proj2 (out_of_range_test (errorlevel conf))) by lia.
  - unfold _cfg_verbose_val2level.
    by rewrite (proj2 (out_of_range_test (debuglevel conf))) by lia.
Qed.

(** [_setup_from_dnf_conf] checks both dials before it sets anything up:
    with either dial outside 0..10 the call raises [AssertionError] and
    leaves the state as it was, also on an object whose [_setup] has already
    run. *)
Theorem setup_from_conf_checks_the_dials (const : dnf_const) (conf : Conf) (w : World) :
  ¬ (0 ≤ debuglevel conf ≤ 10 ∧ 0 ≤ errorlevel conf ≤ 10) →
  _setup_from_dnf_conf const conf w = (Raise AssertionError, w).
Proof.
  intros Hbad. unfold _setup_from_dnf_conf, _cfg_verbose_val2level,
    _cfg_err_val2level.
  destruct ((0 <=? debuglevel conf) && (debuglevel conf <=? 10)) eqn:Hd; [|done].
  destruct ((0 <=? errorlevel conf) && (errorlevel conf <=? 10)) eqn:He; [|done].
  exfalso. apply Hbad. split; by apply in_range_test.
Qed.

Lemma setup_from_conf_checks_the_dials_witness :
  _setup_from_dnf_conf sample_const
    {| debuglevel := 2; errorlevel := 11; logdir := "/var/log";
       log_size := 1000; log_rotate := 4 |} configured =
  (Raise AssertionError, configured).
Proof.
  apply setup_from_conf_checks_the_dials. simpl. lia.
Defined.

(** The console levels [_setup_from_dnf_conf] leaves: when the call that
    runs the set-up returns, both dials were in range, the standard output
    handler is at the level the verbosity table gives [conf.debuglevel] and
    the standard error handler at the level the error table gives
    [conf.errorlevel]. *)
Theorem setup_from_conf_console_levels (const : dnf_const) (conf : Conf)
    (w w' : World) :
  Logging_ok w →
  "_setup" ∉ noops (obj w) →
  _setup_from_dnf_conf const conf w = (Ok tt, w') →
  0 ≤ debuglevel conf ≤ 10 ∧ 0 ≤ errorlevel conf ≤ 10 ∧
  ∃ hout herr hd_out hd_err,
    stdout_handler (obj w') = Some hout ∧
    stderr_handler (obj w') = Some herr ∧
    handlers w' !! hout = Some hd_out ∧
    handlers w' !! herr = Some hd_err ∧
    h_level hd_out = verbose_level_of (debuglevel conf) ∧
    h_level hd_err = error_level_of (errorlevel conf).
Proof.
  intros Hok Harmed Hrun.
  destruct (decide (0 ≤ debuglevel conf ≤ 10 ∧ 0 ≤ errorlevel conf ≤ 10))
    as [[Hd He]|Hbad].
  2: { rewrite conf_dials_checked in Hrun by done. discriminate Hrun. }
  split; [done|]. split; [done|].
  unfold _setup_from_dnf_conf in Hrun.
  rewrite (verbose_closed_form _ Hd), (error_closed_form _ He) in Hrun.
  change (_setup const (verbose_level_of (debuglevel conf))
            (error_level_of (errorlevel conf)) (logdir conf) (log_size conf)
            (log_rotate conf) w = (Ok tt, w')) in Hrun.
  destruct (setup_run _ _ _ _ _ _ _ _ Harmed Hrun)
    as (w1 & wa & wb & wc & wd & w2 & H1 & Ha & Hb & Hc & Hdd & Hend & ->).
  destruct (presetup_std_ok w w1 Hok H1) as (hout & herr & Hstd).
  apply (ext_std_ok _ _ _ _ (frames_run _ _ _ _ (frames_setup_before_librepo _ _ _ _) Ha)) in Hstd.
  apply (ext_std_ok _ _ _ _ (frames_run _ _ _ _ (frames_setup_librepo_logger _ _ _ _) Hb)) in Hstd.
  apply (ext_std_ok _ _ _ _ (frames_run _ _ _ _ (frames_setup_rpm_part _ _ _ _) Hc)) in Hstd.
  apply (ext_std_ok _ _ _ _ (frames_run _ _ _ _ frames_setup_attach_console Hdd)) in Hstd.
  destruct (setup_end_run (verbose_level_of (debuglevel conf))
              (error_level_of (errorlevel conf)) wd hout herr Hstd)
    as (w2' & hd_out & hd_err & Hend' & Hobj & _ & Hl1 & Hl2 & _ & Hv & _ & Her).
  rewrite Hend' in Hend. injection Hend as <-.
  destruct Hstd as (Hout & Herr & _).
  exists hout, herr, hd_out, hd_err. simpl. rewrite Hobj.
  by repeat split.
Qed.

Lemma setup_from_conf_console_levels_witness :
  ∃ hd_out hd_err,
    handlers configured !! 0%nat = Some hd_out ∧
    handlers configured !! 1%nat = Some hd_err ∧
    h_level hd_out = INFO ∧ h_level hd_err = WARNING.
Proof.
  assert (Logging_ok imported) as Hok.
  { intros Hin. vm_compute in Hin. discriminate Hin. }
  assert ("_setup" ∉ noops (obj imported)) as Harmed.
  { intros Hin. vm_compute in Hin. discriminate Hin. }
  assert (_setup_from_dnf_conf sample_const
            {| debuglevel := 2; errorlevel := 3; logdir := "/var/log";
               log_size := 1000; log_rotate := 4 |} imported
          = (Ok tt, configured)) as Hrun by (vm_compute; reflexivity).
  destruct (setup_from_conf_console_levels _ _ _ _ Hok Harmed Hrun)
    as (_ & _ & hout & herr & hd_out & hd_err & Hout & Herr & Hl1 & Hl2 & Hv & He).
  assert (hout = 0%nat) as -> by (vm_compute in Hout; congruence).
  assert (herr = 1%nat) as -> by (vm_compute in Herr; congruence).
  exists hd_out, hd_err. repeat split; assumption.
Defined.


Lemma noops_run {A} (c : M A) (w w' : World) (r : Result A) :
  frames c → c w = (r, w') → noops (obj w) ⊆ noops (obj w').
Proof. intros Hc Hrun. by destruct (frames_run c w w' r Hc Hrun) as (_ & _ & ? & _). Qed.

Lemma frames_setup_end (verbose_level error_level : Z) :
  frames (setup_end verbose_level error_level).
Proof. unfold setup_end. frames_steps. Qed.





(** Once [_setup] has returned, every set-up method it went through is a
    no-op on the object too: a later call of [_presetup],
    [_setup_dnf_logger], [_setup_librepo_logger] or [_setup_rpm_logger],
    with any arguments, returns and changes nothing. *)
Theorem setup_disarms_its_steps (const : dnf_const)
    (verbose_level error_level : Z) (logdir : string) (log_size log_rotate : Z)
    (w w' : World) :
  "_setup" ∉ noops (obj w) →
  _setup const verbose_level error_level logdir log_size log_rotate w = (Ok tt, w') →
  _presetup w' = (Ok tt, w') ∧
  (∀ const' logdir' size rotate verbosity logfile,
     _setup_dnf_logger const' logdir' size rotate verbosity logfile w' = (Ok tt, w')) ∧
  (∀ const' logdir' verbosity logfile,
     _setup_librepo_logger const' logdir' verbosity logfile w' = (Ok tt, w')) ∧
  (∀ const' logdir' size rotate verbosity logfile,
     _setup_rpm_logger const' logdir' size rotate verbosity logfile w' = (Ok tt, w')).
Proof.
  intros Harmed Hrun.
  destruct (setup_run _ _ _ _ _ _ _ _ Harmed Hrun)
    as (w1 & wa & wb & wc & wd & w2 & H1 & Ha & Hb & Hc & Hd & Hend & ->).
  (* the statements of the first part, one by one *)
  unfold setup_before_librepo in Ha.
  apply bind_Ok in Ha as ([] & wx & Hx & Ha).
  apply bind_Ok in Ha as ([] & wy & Hy & Ha).
  apply bind_Ok in Ha as ([] & wz & Hz & Ha).
  (* each method that returned is rebound *)
  pose proof (once_returned _ _ _ _ H1) as Hn1.
  pose proof (once_returned _ _ _ _ Hz) as Hnz.
  pose proof (once_returned _ _ _ _ Hb) as Hnb.
  pose proof (once_returned _ _ _ _ Hc) as Hnc.
  (* and nothing afterwards arms it again *)
  pose proof (noops_run _ _ _ _ (frames_stdout_setLevel _) Hx) as Mx.
  pose proof (noops_run _ _ _ _ (frames_stderr_setLevel _) Hy) as My.
  pose proof (noops_run _ _ _ _ (frames_setup_dnf_logger _ _ _ _ _ _) Hz) as Mz.
  assert (noops (obj wz) ⊆ noops (obj wa)) as Ma.
  { eapply noops_run; [|exact Ha]. frames_steps. }
  pose proof (noops_run _ _ _ _ (frames_setup_librepo_logger _ _ _ _) Hb) as Mb.
  pose proof (noops_run _ _ _ _ (frames_setup_rpm_part _ _ _ _) Hc) as Mc.
  pose proof (noops_run _ _ _ _ frames_setup_attach_console Hd) as Md.
  pose proof (noops_run _ _ _ _ (frames_setup_end _ _) Hend) as Me.
  assert (noops (obj w2) ⊆ noops (obj (exec (setattr_noop "_setup") w2))) as Mf
    by (simpl; set_solver).
  repeat split; intros; apply method_noop; set_solver.
Qed.

Lemma setup_disarms_its_steps_witness :
  _presetup configured = (Ok tt, configured) ∧
  _setup_rpm_logger sample_const "/tmp" 1 0 (Some TRACE) (Some "rpm.log") configured
    = (Ok tt, configured).
Proof.
  assert ("_setup" ∉ noops (obj imported)) as Harmed.
  { intros Hin. vm_compute in Hin. discriminate Hin. }
  assert (_setup sample_const INFO WARNING "/var/log" 1000 4 imported
          = (Ok tt, configured)) as Hrun by (vm_compute; reflexivity).
  destruct (setup_disarms_its_steps sample_const INFO WARNING "/var/log"
              1000 4 imported configured Harmed Hrun) as (Hp & _ & _ & Hr).
  split; [exact Hp|apply Hr].
Defined.

Lemma librepo_flag (d : Z) :
  0 ≤ d ≤ 10 → (verbose_level_of d <=? DEBUG) = bool_decide (3 ≤ d).
Proof.
  intros Hd. unfold verbose_level_of, SUPERCRITICAL, INFO, DEBUG, DDEBUG.
  destruct (Z.eqb_spec d 0), (Z.leb_spec d 2), (Z.leb_spec d 6);
    case_bool_decide; try lia; reflexivity.
Qed.

(** The librepo log: the call of [_setup_from_dnf_conf] that runs the
    set-up registers exactly one librepo log file, named [LOG_LIBREPO] under
    [conf.logdir], and asks for debug output in it iff [conf.debuglevel] is
    3 or more. *)
Theorem setup_from_conf_librepo_log (const : dnf_const) (conf : Conf)
    (w w' : World) :
  "_setup" ∉ noops (obj w) →
  "_setup_librepo_logger" ∉ noops (obj w) →
  _setup_from_dnf_conf const conf w = (Ok tt, w') →
  librepo_log w' =
    librepo_log w ++
      [(os_path_join (logdir conf) (LOG_LIBREPO const),
        bool_decide (3 ≤ debuglevel conf))].
Proof.
  intros Harmed Hlib Hrun.
  destruct (decide (0 ≤ debuglevel conf ≤ 10 ∧ 0 ≤ errorlevel conf ≤ 10))
    as [[Hd He]|Hbad].
  2: { rewrite conf_dials_checked in Hrun by done. discriminate Hrun. }
  unfold _setup_from_dnf_conf in Hrun.
  rewrite (verbose_closed_form _ Hd), (error_closed_form _ He) in Hrun.
  change (_setup const (verbose_level_of (debuglevel conf))
            (error_level_of (errorlevel conf)) (logdir conf) (log_size conf)
            (log_rotate conf) w = (Ok tt, w')) in Hrun.
  destruct (setup_run _ _ _ _ _ _ _ _ Harmed Hrun)
    as (w1 & wa & wb & wc & wd & w2 & H1 & Ha & Hb & Hc & Hdd & Hend & ->).
  (* up to the call nothing touches the librepo log or rebinds the method *)
  pose proof (keeps_run _ _ _ _ _ keeps_librepo_presetup H1) as L1.
  pose proof (keeps_run _ _ _ _ _ (keeps_librepo_before _ _ _ _) Ha) as La.
  pose proof (keeps_run _ _ _ _ _ keeps_armed_librepo_presetup H1) as A1.
  pose proof (keeps_run _ _ _ _ _ (keeps_armed_librepo_before _ _ _ _) Ha) as Aa.
  assert ("_setup_librepo_logger" ∉ noops (obj wa)) as Hliba.
  { apply (bool_decide_unpack _). unfold armed in *. rewrite Aa, A1.
    by apply bool_decide_pack. }
  (* the call itself *)
  unfold _setup_librepo_logger in Hb. rewrite method_armed in Hb by done.
  injection Hb as <-.
  (* and nothing after it *)
  pose proof (keeps_run _ _ _ _ _ (keeps_librepo_rpm _ _ _ _) Hc) as Lc.
  pose proof (keeps_run _ _ _ _ _ keeps_librepo_attach Hdd) as Ld.
  pose proof (keeps_run _ _ _ _ _ (keeps_librepo_setup_end _ _) Hend) as Le.
  simpl in *. rewrite Le, Ld, Lc. simpl.
  rewrite La, L1, (librepo_flag _ Hd). done.
Qed.

Lemma setup_from_conf_librepo_log_witness :
  librepo_log
    (exec (_setup_from_dnf_conf sample_const
             {| debuglevel := 3; errorlevel := 3; logdir := "/var/log";
                log_size := 1000; log_rotate := 4 |}) imported) =
  [("/var/log/dnf.librepo.log", true)].
Proof.
  assert ("_setup" ∉ noops (obj imported)) as Harmed.
  { intros Hin. vm_compute in Hin. discriminate Hin. }
  assert ("_setup_librepo_logger" ∉ noops (obj imported)) as Hlib.
  { intros Hin. vm_compute in Hin. discriminate Hin. }
  rewrite (setup_from_conf_librepo_log sample_const
             {| debuglevel := 3; errorlevel := 3; logdir := "/var/log";
                log_size := 1000; log_rotate := 4 |} imported _ Harmed Hlib).
  - reflexivity.
  - vm_compute. reflexivity.
Defined.

(** What the ["dnf.rpm"] logger gets from [_setup]: when the call that runs
    the set-up returns, both console handlers of the object are attached to
    the logger ["dnf.rpm"]. *)
Theorem setup_attaches_the_console_to_rpm (const : dnf_const)
    (verbose_level error_level : Z) (logdir : string) (log_size log_rotate : Z)
    (w w' : World) :
  Logging_ok w →
  "_setup" ∉ noops (obj w) →
  _setup const verbose_level error_level logdir log_size log_rotate w = (Ok tt, w') →
  ∃ hout herr,
    stdout_handler (obj w') = Some hout ∧
    stderr_handler (obj w') = Some herr ∧
    Some hout ∈ l_handlers (the_logger w' "dnf.rpm") ∧
    Some herr ∈ l_handlers (the_logger w' "dnf.rpm").
Proof.
  intros Hok Harmed Hrun.
  destruct (setup_run _ _ _ _ _ _ _ _ Harmed Hrun)
    as (w1 & wa & wb & wc & wd & w2 & H1 & Ha & Hb & Hc & Hd & Hend & ->).
  destruct (presetup_std_ok w w1 Hok H1) as (hout & herr & Hstd).
  apply (ext_std_ok _ _ _ _ (frames_run _ _ _ _ (frames_setup_before_librepo _ _ _ _) Ha)) in Hstd.
  apply (ext_std_ok _ _ _ _ (frames_run _ _ _ _ (frames_setup_librepo_logger _ _ _ _) Hb)) in Hstd.
  apply (ext_std_ok _ _ _ _ (frames_run _ _ _ _ (frames_setup_rpm_part _ _ _ _) Hc)) in Hstd.
  pose proof Hstd as (Hout & Herr & _).
  pose proof (frames_run _ _ _ _ frames_setup_attach_console Hd) as (Hod & Hed & _).
  pose proof (frames_run _ _ _ _ (frames_setup_end _ _) Hend) as (Ho2 & He2 & _).
  pose proof (keeps_run _ _ _ _ _ (keeps_loggers_setup_end _ _) Hend) as Hl2.
  exists hout, herr. simpl.
  split; [congruence|]. split; [congruence|].
  assert (the_logger (exec (setattr_noop "_setup") w2) "dnf.rpm"
          = the_logger wd "dnf.rpm") as -> by by apply the_logger_same.
  (* the four statements *)
  unfold setup_attach_console in Hd.
  rewrite (bind_run (getLogger "dnf.rpm") _ wc
             (exec (getLogger "dnf.rpm") wc) "dnf.rpm" eq_refl) in Hd.
  set (wp := exec (getLogger "dnf.rpm") wc) in Hd.
  assert (obj wp = obj wc) as Hobj by done.
  clearbody wp.
  rewrite (bind_run get_world _ wp wp wp eq_refl) in Hd. rewrite Hobj, Hout, Herr in Hd.
  rewrite (bind_run (Logger_addHandler "dnf.rpm" (Some hout)) _ wp
             (exec (Logger_addHandler "dnf.rpm" (Some hout)) wp) tt eq_refl) in Hd.
  set (wq := exec (Logger_addHandler "dnf.rpm" (Some hout)) wp) in Hd.
  assert (Some hout ∈ l_handlers (the_logger wq "dnf.rpm")) as Hin1.
  { unfold wq, Logger_addHandler. rewrite the_logger_update. simpl.
    case_decide; [done|]. set_solver. }
  clearbody wq.
  assert (wd = exec (Logger_addHandler "dnf.rpm" (Some herr)) wq) as ->
    by (unfold exec; by rewrite Hd).
  unfold Logger_addHandler. rewrite the_logger_update. simpl.
  case_decide; set_solver.
Qed.

Lemma setup_attaches_the_console_to_rpm_witness :
  Some 0%nat ∈ l_handlers (the_logger configured "dnf.rpm") ∧
  Some 1%nat ∈ l_handlers (the_logger configured "dnf.rpm").
Proof.
  assert (Logging_ok imported) as Hok.
  { intros Hin. vm_compute in Hin. discriminate Hin. }
  assert ("_setup" ∉ noops (obj imported)) as Harmed.
  { intros Hin. vm_compute in Hin. discriminate Hin. }
  assert (_setup sample_const INFO WARNING "/var/log" 1000 4 imported
          = (Ok tt, configured)) as Hrun by (vm_compute; reflexivity).
  destruct (setup_attaches_the_console_to_rpm sample_const INFO WARNING "/var/log"
              1000 4 imported configured Hok Harmed Hrun)
    as (hout & herr & Hout & Herr & Hin1 & Hin2).
  assert (hout = 0%nat) as -> by (vm_compute in Hout; congruence).
  assert (herr = 1%nat) as -> by (vm_compute in Herr; congruence).
  split; [exact Hin1|exact Hin2].
Defined.

(** ** File handlers *)

(** [_create_filehandler] and the file's permissions: when nothing is
    refused, the call returns a new handler for the file, without level or
    filters and with the UTC line format; a log file that was there already
    keeps its mode, and a log file that was missing is created, in a
    directory made sure of, with mode 0o644. *)
Theorem create_filehandler_modes (logfile : string) (log_size log_rotate : Z)
    (w : World) :
  logfile ∉ denied w →
  (logfile ∈ files w ∨ os_path_dirname logfile ∉ denied w) →
  ∃ w',
    _create_filehandler logfile log_size log_rotate w
      = (Ok (length (handlers w)), w') ∧
    handlers w' = handlers w ++ [file_sink logfile log_size log_rotate] ∧
    loggers w' = loggers w ∧
    (logfile ∈ files w → modes w' = modes w ∧ files w' = files w) ∧
    (logfile ∉ files w →
       modes w' = <[logfile := 420]> (modes w) ∧
       files w' = {[logfile]} ∪ ({[os_path_dirname logfile]} ∪ files w)).
Proof.
  intros Hfile Hdir.
  unfold _create_filehandler, os_path_exists, ensure_dir, touch, os_chmod,
    new_MultiprocessRotatingFileHandler, create, new_Handler,
    Handler_setFormatter, update_handler, modify, get_world.
  unfold mbind, M_bind, mret, M_ret. simpl.
  destruct (decide (logfile ∈ files w)) as [Hin|Hout].
  - rewrite bool_decide_eq_true_2 by done. simpl.
    rewrite decide_False by done. simpl.
    eexists. split; [reflexivity|]. simpl.
    split; [apply (update_middle (handlers w) [])|]. split; [done|].
    split; [|done]. intros _. split; [done|]. set_solver.
  - rewrite bool_decide_eq_false_2 by done. simpl.
    destruct Hdir as [Hin|Hdir]; [done|].
    rewrite decide_False by done. simpl.
    rewrite decide_False by done. simpl.
    rewrite decide_False by done. simpl.
    rewrite decide_False by done. simpl.
    eexists. split; [reflexivity|]. simpl.
    split; [apply (update_middle (handlers w) [])|]. split; [done|].
    split; [done|]. intros _. split; [done|]. set_solver.
Qed.

Lemma create_filehandler_modes_witness :
  ∃ w', _create_filehandler "/var/log/dnf.rpm.log" 1000 4 with_old_log = (Ok 0%nat, w') ∧
        modes w' !! "/var/log/dnf.rpm.log" = Some 384.
Proof.
  assert ("/var/log/dnf.rpm.log" ∉ denied with_old_log) as Hfile.
  { intros Hin. vm_compute in Hin. discriminate Hin. }
  assert ("/var/log/dnf.rpm.log" ∈ files with_old_log) as Hthere.
  { vm_compute. reflexivity. }
  destruct (create_filehandler_modes "/var/log/dnf.rpm.log" 1000 4 with_old_log
              Hfile (or_introl Hthere))
    as (w' & Hrun & _ & _ & Hold & _).
  exists w'. split; [exact Hrun|].
  destruct (Hold Hthere) as [-> _]. vm_compute. reflexivity.
Defined.

(** When [_create_filehandler] raises, the error is [OSError] and no
    handler object has been made: handlers, loggers and delivered records
    are as before. *)
Lemma create_filehandler_raise (logfile : string) (log_size log_rotate : Z)
    (w w' : World) (e : exn) :
  _create_filehandler logfile log_size log_rotate w = (Raise e, w') →
  e = OSError ∧ handlers w' = handlers w ∧ loggers w' = loggers w ∧
  emitted w' = emitted w ∧ obj w' = obj w.
Proof.
  unfold _create_filehandler, os_path_exists, ensure_dir, touch, os_chmod,
    new_MultiprocessRotatingFileHandler, create, new_Handler,
    Handler_setFormatter, update_handler, modify, get_world.
  unfold mbind, M_bind, mret, M_ret, raise. simpl.
  destruct (bool_decide (logfile ∈ files w)); simpl;
    repeat (case_decide; simpl); intros [= <- <-]; done.
Qed.

(** [Logger.log] raises nothing but the [AttributeError] of a handler list
    that holds [None]. *)
Lemma call_each_raise (record : LogRecord) (hs : list (option nat))
    (w w' : World) (e : exn) :
  call_each record hs w = (Raise e, w') → e = AttributeError.
Proof.
  revert w. induction hs as [|h hs IH]; intros w; simpl; [discriminate|].
  unfold mbind, M_bind.
  destruct (call_handler record h w) as [[[]|e'] w1] eqn:Hcall.
  - apply IH.
  - intros [= <- <-]. unfold call_handler in Hcall.
    destruct h as [h|]; simpl in Hcall.
    + unfold mbind, M_bind, mret, M_ret, get_world in Hcall. simpl in Hcall.
      destruct (handlers w !! h) as [hd|]; [|discriminate Hcall].
      destruct (delivers hd record); discriminate Hcall.
    + by injection Hcall as <- _.
Qed.

Lemma Logger_log_raise (logger : string) (level : Z) (message : PyVal)
    (w w' : World) (e : exn) :
  Logger_log logger level message w = (Raise e, w') → e = AttributeError.
Proof.
  unfold Logger_log, get_world, mbind, M_bind.
  destruct (isEnabledFor w logger level); [|discriminate].
  generalize (chain w logger). intros c. revert w.
  induction c as [|l c IH]; intros w; simpl; [discriminate|].
  unfold mbind, M_bind.
  destruct (call_each _ (l_handlers l) w) as [[[]|e'] w1] eqn:Hcall.
  - destruct (l_propagate l); [apply IH|discriminate].
  - intros [= <- <-]. by eapply call_each_raise.
Qed.

(** A set-up of the ["dnf.rpm"] logger that fails on its file leaves the
    logger cut off: [propagate] has been switched off already, and no
    handler has been attached or made. *)
Theorem failed_rpm_setup_leaves_the_logger_cut_off (const : dnf_const)
    (logdir : string) (log_size log_rotate : Z) (verbosity : option Z)
    (logfile : option string) (w w' : World) :
  _setup_rpm_logger_body const logdir log_size log_rotate verbosity logfile w
    = (Raise OSError, w') →
  l_propagate (the_logger w' "dnf.rpm") = false ∧
  l_handlers (the_logger w' "dnf.rpm") = l_handlers (the_logger w "dnf.rpm") ∧
  l_level (the_logger w' "dnf.rpm") = l_level (the_logger w "dnf.rpm") ∧
  handlers w' = handlers w ∧
  emitted w' = emitted w.
Proof.
  unfold _setup_rpm_logger_body.
  rewrite (bind_run (getLogger "dnf.rpm") _ w
             (exec (getLogger "dnf.rpm") w) "dnf.rpm" eq_refl).
  rewrite (bind_run (Logger_set_propagate "dnf.rpm" false) _ _
             (exec (Logger_set_propagate "dnf.rpm" false)
                   (exec (getLogger "dnf.rpm") w)) tt eq_refl).
  set (w1 := exec (Logger_set_propagate "dnf.rpm" false)
                  (exec (getLogger "dnf.rpm") w)).
  assert (the_logger w1 "dnf.rpm" =
          Build_Logger (l_level (the_logger w "dnf.rpm")) false
                       (l_handlers (the_logger w "dnf.rpm"))) as Hlg.
  { unfold w1, Logger_set_propagate. rewrite the_logger_update.
    change (exec (getLogger "dnf.rpm") w)
      with (exec (update_logger "dnf.rpm" id) w).
    by rewrite the_logger_update. }
  assert (handlers w1 = handlers w ∧ emitted w1 = emitted w) as [Hh1 He1] by done.
  clearbody w1.
  cbv zeta.
  destruct (_create_filehandler
              (os_path_join logdir (or_default logfile (LOG_RPM const)))
              log_size log_rotate w1)
    as [[h|e] w2] eqn:Hfile.
  - rewrite (bind_run _ _ _ _ _ Hfile).
    intros Hrest. exfalso.
    rewrite (bind_run (Logger_addHandler "dnf.rpm" (Some h)) _ w2
               (exec (Logger_addHandler "dnf.rpm" (Some h)) w2) tt eq_refl) in Hrest.
    rewrite (bind_run (Logger_setLevel "dnf.rpm" (default SUBDEBUG verbosity)) _ _
               (exec (Logger_setLevel "dnf.rpm" (default SUBDEBUG verbosity))
                     (exec (Logger_addHandler "dnf.rpm" (Some h)) w2)) tt eq_refl)
      in Hrest.
    apply Logger_log_raise in Hrest. discriminate Hrest.
  - rewrite (bind_raise _ _ _ _ _ Hfile). intros [= -> <-].
    destruct (create_filehandler_raise _ _ _ _ _ _ Hfile)
      as (_ & Hh2 & Hl2 & He2 & _).
    rewrite (the_logger_same "dnf.rpm" w1 w2 Hl2), Hlg. simpl.
    repeat split; congruence.
Qed.

Lemma failed_rpm_setup_leaves_the_logger_cut_off_witness :
  l_propagate
    (the_logger
       (exec (_setup_rpm_logger_body sample_const "/var/log" 1000 4 None None)
             unwritable_log) "dnf.rpm") = false.
Proof.
  apply (failed_rpm_setup_leaves_the_logger_cut_off sample_const "/var/log"
           1000 4 None None unwritable_log).
  vm_compute. reflexivity.
Defined.

(** When [_create_filehandler] returns, it returns the handler it has just
    made, and has touched neither loggers nor delivered records. *)
Lemma create_filehandler_ok (logfile : string) (log_size log_rotate : Z)
    (w w' : World) (h : nat) :
  _create_filehandler logfile log_size log_rotate w = (Ok h, w') →
  h = length (handlers w) ∧
  handlers w' = handlers w ++ [file_sink logfile log_size log_rotate] ∧
  loggers w' = loggers w ∧ emitted w' = emitted w.
Proof.
  unfold _create_filehandler, os_path_exists, ensure_dir, touch, os_chmod,
    new_MultiprocessRotatingFileHandler, create, new_Handler,
    Handler_setFormatter, update_handler, modify, get_world.
  unfold mbind, M_bind, mret, M_ret, raise. simpl.
  destruct (bool_decide (logfile ∈ files w)); simpl;
    repeat (case_decide; simpl); intros [= <- <-]; simpl;
    (split; [done|]); (split; [apply (update_middle (handlers w) [])|done]).
Qed.

Lemma keeps_handlers_call_each (record : LogRecord) (hs : list (option nat)) :
  keeps handlers (call_each record hs).
Proof. apply keeps_call_each. reflexivity. Qed.

(** Delivered records are only ever added to. *)
Lemma call_handler_grows (record : LogRecord) (hdlr : option nat) (w : World) :
  ∃ more, emitted (snd (call_handler record hdlr w)) = emitted w ++ more.
Proof.
  unfold call_handler. destruct hdlr as [h|]; simpl; [|by exists []; rewrite app_nil_r].
  unfold mbind, M_bind, mret, M_ret, get_world. simpl.
  destruct (handlers w !! h) as [hd|]; [|by exists []; rewrite app_nil_r].
  destruct (delivers hd record); simpl; [by eexists|by exists []; rewrite app_nil_r].
Qed.

Lemma call_each_grows (record : LogRecord) (hs : list (option nat)) (w : World) :
  ∃ more, emitted (snd (call_each record hs w)) = emitted w ++ more.
Proof.
  revert w. induction hs as [|h hs IH]; intros w; simpl.
  { exists []. by rewrite app_nil_r. }
  unfold mbind, M_bind.
  destruct (call_handler_grows record h w) as [m1 Hm1].
  destruct (call_handler record h w) as [[[]|e] w1]; simpl in *; [|by exists m1].
  destruct (IH w1) as [m2 Hm2]. exists (m1 ++ m2).
  by rewrite Hm2, Hm1, app_assoc.
Qed.

(** A [for] loop over handlers that runs to its end has called [emit] on
    every handler of the list that delivers the record. *)
Lemma call_each_delivers (record : LogRecord) (hs : list (option nat))
    (w w' : World) (h : nat) (hd : Handler) :
  call_each record hs w = (Ok tt, w') →
  Some h ∈ hs →
  handlers w !! h = Some hd →
  delivers hd record = true →
  (h, record) ∈ emitted w'.
Proof.
  revert w. induction hs as [|x hs IH]; intros w Hrun Hin Hl Hd.
  { by apply elem_of_nil in Hin. }
  simpl in Hrun. apply bind_Ok in Hrun as ([] & w1 & Hcall & Hrest).
  assert (handlers w1 = handlers w) as Hh1.
  { pose proof (keeps_handlers_call_each record [x] w) as Hk. simpl in Hk.
    unfold mbind, M_bind in Hk. by rewrite Hcall in Hk. }
  apply elem_of_cons in Hin as [<-|Hin].
  - assert ((h, record) ∈ emitted w1) as Hthere.
    { unfold call_handler in Hcall. simpl in Hcall.
      unfold mbind, M_bind, mret, M_ret, get_world in Hcall. simpl in Hcall.
      rewrite Hl, Hd in Hcall. injection Hcall as <-. simpl. set_solver. }
    destruct (call_each_grows record hs w1) as [more Hmore].
    rewrite Hrest in Hmore. simpl in Hmore. rewrite Hmore. set_solver.
  - apply (IH w1); try done. by rewrite Hh1.
Qed.

(** The set-up of the ["dnf.rpm"] logger, when it returns: the logger does
    not propagate, is at the level asked for ([SUBDEBUG] by default) and has
    the new file handler attached; the marker line goes to that handler when
    the level lets [INFO] through, and nowhere when the level is above
    [INFO]. *)
Theorem rpm_logger_setup (const : dnf_const)
    (logdir : string) (log_size log_rotate : Z) (verbosity : option Z)
    (logfile : option string) (w w' : World) :
  _setup_rpm_logger_body const logdir log_size log_rotate verbosity logfile w
    = (Ok tt, w') →
  let h := length (handlers w) in
  let path := os_path_join logdir (or_default logfile (LOG_RPM const)) in
  let level := default SUBDEBUG verbosity in
  l_propagate (the_logger w' "dnf.rpm") = false ∧
  l_level (the_logger w' "dnf.rpm") = level ∧
  Some h ∈ l_handlers (the_logger w' "dnf.rpm") ∧
  handlers w' !! h = Some (file_sink path log_size log_rotate) ∧
  (0 < level ≤ INFO → (h, marker const) ∈ emitted w') ∧
  (INFO < level → emitted w' = emitted w).
Proof.
  intros Hrun h path level. unfold _setup_rpm_logger_body in Hrun.
  cbv zeta in Hrun. fold path level in Hrun.
  rewrite (bind_run (getLogger "dnf.rpm") _ w
             (exec (getLogger "dnf.rpm") w) "dnf.rpm" eq_refl) in Hrun.
  rewrite (bind_run (Logger_set_propagate "dnf.rpm" false) _ _
             (exec (Logger_set_propagate "dnf.rpm" false)
                   (exec (getLogger "dnf.rpm") w)) tt eq_refl) in Hrun.
  set (w1 := exec (Logger_set_propagate "dnf.rpm" false)
                  (exec (getLogger "dnf.rpm") w)) in Hrun.
  assert (l_propagate (the_logger w1 "dnf.rpm") = false) as Hp1
    by (unfold w1, Logger_set_propagate; by rewrite the_logger_update).
  assert (handlers w1 = handlers w ∧ emitted w1 = emitted w) as [Hh1 He1] by done.
  clearbody w1.
  apply bind_Ok in Hrun as (h' & w2 & Hfile & Hrun).
  destruct (create_filehandler_ok _ _ _ _ _ _ Hfile) as (-> & Hh2 & Hl2 & He2).
  rewrite Hh1 in Hh2. fold h in Hh2, Hrun.
  rewrite <- (the_logger_same "dnf.rpm" w1 w2 Hl2) in Hp1.
  clear Hfile Hl2.
  rewrite (bind_run (Logger_addHandler "dnf.rpm" (Some (length (handlers w1)))) _ w2
             (exec (Logger_addHandler "dnf.rpm" (Some (length (handlers w1)))) w2)
             tt eq_refl) in Hrun.
  rewrite Hh1 in Hrun. fold h in Hrun.
  set (w3 := exec (Logger_addHandler "dnf.rpm" (Some h)) w2) in Hrun.
  assert (l_propagate (the_logger w3 "dnf.rpm") = false ∧
          Some h ∈ l_handlers (the_logger w3 "dnf.rpm")) as [Hp3 Hin3].
  { unfold w3, Logger_addHandler. rewrite the_logger_update. simpl.
    split; [done|]. case_decide; [done|]. set_solver. }
  assert (handlers w3 = handlers w2 ∧ emitted w3 = emitted w2) as [Hh3 He3] by done.
  clearbody w3.
  rewrite (bind_run (Logger_setLevel "dnf.rpm" level) _ w3
             (exec (Logger_setLevel "dnf.rpm" level) w3) tt eq_refl) in Hrun.
  set (w4 := exec (Logger_setLevel "dnf.rpm" level) w3) in Hrun.
  assert (the_logger w4 "dnf.rpm" =
          Build_Logger level false (l_handlers (the_logger w3 "dnf.rpm"))) as Hlg4.
  { unfold w4, Logger_setLevel. rewrite the_logger_update. by rewrite Hp3. }
  assert (handlers w4 = handlers w3 ∧ emitted w4 = emitted w3) as [Hh4 He4] by done.
  clearbody w4.
  (* the marker *)
  assert (loggers w' = loggers w4 ∧ handlers w' = handlers w4) as [Hl' Hh'].
  { split.
    - eapply (keeps_run loggers); [|exact Hrun]. unfold _paint_mark. keeps_steps.
    - eapply (keeps_run handlers); [|exact Hrun]. unfold _paint_mark. keeps_steps. }
  rewrite (the_logger_same "dnf.rpm" w4 w' Hl'), Hlg4. simpl.
  assert (handlers w' !! h = Some (file_sink path log_size log_rotate)) as Hsink.
  { rewrite Hh', Hh4, Hh3, Hh2. by apply list_lookup_middle. }
  split; [done|]. split; [done|]. split; [done|]. split; [done|].
  unfold _paint_mark, Logger_log, get_world, mbind, M_bind in Hrun.
  assert (getEffectiveLevel w4 "dnf.rpm" = level ∨ level = 0) as Heff.
  { destruct (decide (level = 0)) as [?|Hne]; [by right|left].
    rewrite getEffectiveLevel_set; by rewrite Hlg4. }
  split.
  - intros [Hpos Hinfo].
    destruct Heff as [Heff|?]; [|lia].
    rewrite (proj2 (isEnabledFor_iff w4 "dnf.rpm" INFO)) in Hrun by lia.
    unfold chain in Hrun. simpl in Hrun. rewrite Hlg4 in Hrun. simpl in Hrun.
    unfold mbind, M_bind in Hrun.
    destruct (call_each _ (l_handlers (the_logger w3 "dnf.rpm")) w4)
      as [[[]|e] w5] eqn:Hcall; [|discriminate Hrun].
    injection Hrun as <-.
    apply (call_each_delivers _ _ _ _ h (file_sink path log_size log_rotate) Hcall Hin3);
      [|reflexivity].
    rewrite Hh4, Hh3, Hh2. by apply list_lookup_middle.
  - intros Hhigh.
    destruct Heff as [Heff|?]; [|unfold INFO in *; lia].
    destruct (isEnabledFor w4 "dnf.rpm" INFO) eqn:Hen.
    { apply isEnabledFor_iff in Hen. lia. }
    injection Hrun as <-. congruence.
Qed.

Lemma rpm_logger_setup_witness :
  (2%nat, marker sample_const) ∈
    emitted (exec (_setup_rpm_logger_body sample_const "/var/log" 1000 4 None None)
                  presetup_done).
Proof.
  apply (rpm_logger_setup sample_const "/var/log" 1000 4 None None presetup_done).
  - vm_compute. reflexivity.
  - vm_compute. split; [reflexivity|]. intros Hgt. discriminate Hgt.
Defined.

Lemma callHandlers_grows (record : LogRecord) (c : list Logger) (w : World) :
  ∃ more, emitted (snd (callHandlers record c w)) = emitted w ++ more.
Proof.
  revert w. induction c as [|l c IH]; intros w; simpl.
  { exists []. by rewrite app_nil_r. }
  unfold mbind, M_bind.
  destruct (call_each_grows record (l_handlers l) w) as [m1 Hm1].
  destruct (call_each record (l_handlers l) w) as [[[]|e] w1]; simpl in *;
    [|by exists m1].
  destruct (l_propagate l); [|by exists m1].
  destruct (IH w1) as [m2 Hm2]. exists (m1 ++ m2).
  by rewrite Hm2, Hm1, app_assoc.
Qed.

(** A call of [log] that returns has called [emit] on every handler of the
    logger itself that delivers the record. *)
Lemma Logger_log_delivers (logger : string) (level : Z) (message : PyVal)
    (w w' : World) (h : nat) (hd : Handler) :
  Logger_log logger level message w = (Ok tt, w') →
  isEnabledFor w logger level = true →
  Some h ∈ l_handlers (the_logger w logger) →
  handlers w !! h = Some hd →
  delivers hd {| levelno := level; msg := message |} = true →
  (h, {| levelno := level; msg := message |}) ∈ emitted w'.
Proof.
  intros Hrun Hen Hin Hl Hd.
  unfold Logger_log, get_world, mbind, M_bind in Hrun. rewrite Hen in Hrun.
  unfold chain in Hrun. simpl in Hrun. unfold mbind, M_bind in Hrun.
  destruct (call_each _ (l_handlers (the_logger w logger)) w)
    as [[[]|e] w1] eqn:Hcall; [|discriminate Hrun].
  pose proof (call_each_delivers _ _ _ _ _ _ Hcall Hin Hl Hd) as Hthere.
  destruct (l_propagate (the_logger w logger)).
  - match type of Hrun with
    | callHandlers ?r ?c w1 = _ =>
        destruct (callHandlers_grows r c w1) as [more Hmore]
    end.
    rewrite Hrun in Hmore. simpl in Hmore. rewrite Hmore. set_solver.
  - by injection Hrun as <-.
Qed.

Lemma the_logger_update_ne (name name' : string) (f : Logger → Logger) (w : World) :
  name ≠ name' →
  the_logger (exec (update_logger name' f) w) name = the_logger w name.
Proof.
  intros Hne. unfold the_logger at 1. simpl. by rewrite lookup_insert_ne.
Qed.

(** The set-up of the ["dnf"] logger, when it returns: the logger is at
    the level asked for ([TRACE] by default) and has the new file handler;
    Python warnings are captured, and the ["py.warnings"] logger has the
    same file handler and whatever the object holds as its standard error
    handler at that moment ([None] before [_presetup] has run); the marker
    line goes to the file handler when the level lets [INFO] through. *)
Theorem dnf_logger_setup (const : dnf_const)
    (logdir : string) (log_size log_rotate : Z) (verbosity : option Z)
    (logfile : option string) (w w' : World) :
  _setup_dnf_logger_body const logdir log_size log_rotate verbosity logfile w
    = (Ok tt, w') →
  let h := length (handlers w) in
  let path := os_path_join logdir (or_default logfile (LOG const)) in
  let level := default TRACE verbosity in
  l_level (the_logger w' "dnf") = level ∧
  Some h ∈ l_handlers (the_logger w' "dnf") ∧
  handlers w' !! h = Some (file_sink path log_size log_rotate) ∧
  captureWarnings w' = true ∧
  stderr_handler (obj w) ∈ l_handlers (the_logger w' "py.warnings") ∧
  Some h ∈ l_handlers (the_logger w' "py.warnings") ∧
  (0 < level ≤ INFO → (h, marker const) ∈ emitted w').
Proof.
  intros Hrun h path level. unfold _setup_dnf_logger_body in Hrun.
  cbv zeta in Hrun. fold path level in Hrun.
  rewrite (bind_run (getLogger "dnf") _ w
             (exec (getLogger "dnf") w) "dnf" eq_refl) in Hrun.
  rewrite (bind_run (Logger_setLevel "dnf" level) _ _
             (exec (Logger_setLevel "dnf" level) (exec (getLogger "dnf") w))
             tt eq_refl) in Hrun.
  set (w1 := exec (Logger_setLevel "dnf" level) (exec (getLogger "dnf") w)) in Hrun.
  assert (l_level (the_logger w1 "dnf") = level) as Hlv1
    by (unfold w1, Logger_setLevel; by rewrite the_logger_update).
  assert (handlers w1 = handlers w ∧ obj w1 = obj w) as [Hh1 Ho1] by done.
  clearbody w1.
  apply bind_Ok in Hrun as (h' & w2 & Hfile & Hrun).
  destruct (create_filehandler_ok _ _ _ _ _ _ Hfile) as (-> & Hh2 & Hl2 & _).
  assert (obj w2 = obj w1) as Ho2.
  { eapply (keeps_run obj); [|exact Hfile]. keeps_steps. }
  rewrite Hh1 in Hh2, Hrun. fold h in Hrun.
  rewrite <- (the_logger_same "dnf" w1 w2 Hl2) in Hlv1. clear Hfile Hl2.
  rewrite (bind_run (Logger_addHandler "dnf" (Some h)) _ w2
             (exec (Logger_addHandler "dnf" (Some h)) w2) tt eq_refl) in Hrun.
  set (w3 := exec (Logger_addHandler "dnf" (Some h)) w2) in Hrun.
  assert (l_level (the_logger w3 "dnf") = level ∧
          Some h ∈ l_handlers (the_logger w3 "dnf")) as [Hlv3 Hin3].
  { unfold w3, Logger_addHandler. rewrite the_logger_update. simpl.
    split; [done|]. case_decide; [done|]. set_solver. }
  assert (handlers w3 = handlers w2 ∧ obj w3 = obj w2) as [Hh3 Ho3] by done.
  clearbody w3.
  (* setup Python warnings *)
  rewrite (bind_run (modify (set_captureWarnings true)) _ w3
             (set_captureWarnings true w3) tt eq_refl) in Hrun.
  rewrite (bind_run (getLogger "py.warnings") _ _
             (exec (getLogger "py.warnings") (set_captureWarnings true w3))
             "py.warnings" eq_refl) in Hrun.
  set (w4 := exec (getLogger "py.warnings") (set_captureWarnings true w3)) in Hrun.
  assert (the_logger w4 "dnf" = the_logger w3 "dnf") as Hd4.
  { unfold w4. change (exec (getLogger "py.warnings") (set_captureWarnings true w3))
      with (exec (update_logger "py.warnings" id) (set_captureWarnings true w3)).
    by rewrite the_logger_update_ne. }
  assert (handlers w4 = handlers w3 ∧ obj w4 = obj w3 ∧ captureWarnings w4 = true)
    as (Hh4 & Ho4 & Hc4) by done.
  clearbody w4.
  rewrite (bind_run get_world _ w4 w4 w4 eq_refl) in Hrun.
  rewrite Ho4, Ho3, Ho2, Ho1 in Hrun.
  rewrite (bind_run (Logger_addHandler "py.warnings" (stderr_handler (obj w))) _ w4
             (exec (Logger_addHandler "py.warnings" (stderr_handler (obj w))) w4)
             tt eq_refl) in Hrun.
  set (w5 := exec (Logger_addHandler "py.warnings" (stderr_handler (obj w))) w4)
    in Hrun.
  assert (stderr_handler (obj w) ∈ l_handlers (the_logger w5 "py.warnings")) as Hw5.
  { unfold w5, Logger_addHandler. rewrite the_logger_update. simpl.
    case_decide; [done|]. set_solver. }
  assert (the_logger w5 "dnf" = the_logger w4 "dnf") as Hd5
    by (unfold w5, Logger_addHandler; by rewrite the_logger_update_ne).
  assert (handlers w5 = handlers w4 ∧ captureWarnings w5 = true) as [Hh5 Hc5] by done.
  clearbody w5.
  rewrite (bind_run (Logger_addHandler "py.warnings" (Some h)) _ w5
             (exec (Logger_addHandler "py.warnings" (Some h)) w5) tt eq_refl) in Hrun.
  set (w6 := exec (Logger_addHandler "py.warnings" (Some h)) w5) in Hrun.
  assert (stderr_handler (obj w) ∈ l_handlers (the_logger w6 "py.warnings") ∧
          Some h ∈ l_handlers (the_logger w6 "py.warnings")) as [Hw6 Hw6'].
  { unfold w6, Logger_addHandler. rewrite the_logger_update. simpl.
    case_decide; set_solver. }
  assert (the_logger w6 "dnf" = the_logger w5 "dnf") as Hd6
    by (unfold w6, Logger_addHandler; by rewrite the_logger_update_ne).
  assert (handlers w6 = handlers w5 ∧ captureWarnings w6 = true) as [Hh6 Hc6] by done.
  clearbody w6.
  (* the marker *)
  assert (loggers w' = loggers w6 ∧ handlers w' = handlers w6 ∧
          captureWarnings w' = captureWarnings w6) as (Hl' & Hh' & Hc').
  { repeat split.
    - eapply (keeps_run loggers); [|exact Hrun]. unfold _paint_mark. keeps_steps.
    - eapply (keeps_run handlers); [|exact Hrun]. unfold _paint_mark. keeps_steps.
    - eapply (keeps_run captureWarnings); [|exact Hrun]. unfold _paint_mark.
      keeps_steps. }
  rewrite !(the_logger_same _ w6 w' Hl').
  assert (handlers w6 !! h = Some (file_sink path log_size log_rotate)) as Hsink.
  { rewrite Hh6, Hh5, Hh4, Hh3, Hh2. by apply list_lookup_middle. }
  rewrite Hd6, Hd5, Hd4.
  split; [done|]. split; [done|]. split; [by rewrite Hh'|].
  split; [congruence|]. split; [done|]. split; [done|].
  intros [Hpos Hinfo].
  apply (Logger_log_delivers "dnf" INFO (VStr (LOG_MARKER const)) w6 w' h
           (file_sink path log_size log_rotate) Hrun); try done.
  - apply isEnabledFor_iff. rewrite getEffectiveLevel_set.
    + rewrite Hd6, Hd5, Hd4, Hlv3. done.
    + rewrite Hd6, Hd5, Hd4, Hlv3. unfold NOTSET. lia.
  - by rewrite Hd6, Hd5, Hd4.
Qed.

Lemma dnf_logger_setup_witness :
  None ∈ l_handlers
    (the_logger
       (exec (_setup_dnf_logger_body sample_const "/var/log" 1000 4 None None)
             imported) "py.warnings").
Proof.
  apply (dnf_logger_setup sample_const "/var/log" 1000 4 None None imported).
  vm_compute. reflexivity.
Defined.

(** ** What the libdnf callback leaves alone *)

Lemma call_handler_adds (record : LogRecord) (hdlr : option nat) (w : World) :
  ∃ hs, emitted (snd (call_handler record hdlr w)) =
        emitted w ++ ((λ h, (h, record)) <$> hs).
Proof.
  unfold call_handler. destruct hdlr as [h|]; simpl;
    [|by exists []; rewrite app_nil_r].
  unfold mbind, M_bind, mret, M_ret, get_world. simpl.
  destruct (handlers w !! h) as [hd|]; [|by exists []; rewrite app_nil_r].
  destruct (delivers hd record); simpl;
    [by exists [h]|by exists []; rewrite app_nil_r].
Qed.

Lemma call_each_adds (record : LogRecord) (hs : list (option nat)) (w : World) :
  ∃ hs', emitted (snd (call_each record hs w)) =
         emitted w ++ ((λ h, (h, record)) <$> hs').
Proof.
  revert w. induction hs as [|h hs IH]; intros w; simpl.
  { exists []. by rewrite app_nil_r. }
  unfold mbind, M_bind.
  destruct (call_handler_adds record h w) as [m1 Hm1].
  destruct (call_handler record h w) as [[[]|e] w1]; simpl in *; [|by exists m1].
  destruct (IH w1) as [m2 Hm2]. exists (m1 ++ m2).
  by rewrite Hm2, Hm1, fmap_app, app_assoc.
Qed.

Lemma Logger_log_adds (logger : string) (level : Z) (message : PyVal) (w : World) :
  ∃ hs, emitted (snd (Logger_log logger level message w)) =
        emitted w ++ ((λ h, (h, {| levelno := level; msg := message |})) <$> hs).
Proof.
  unfold Logger_log, get_world, mbind, M_bind.
  destruct (isEnabledFor w logger level); [|by exists []; rewrite app_nil_r].
  generalize (chain w logger). intros c. revert w.
  induction c as [|l c IH]; intros w; simpl.
  { exists []. by rewrite app_nil_r. }
  unfold mbind, M_bind.
  destruct (call_each_adds {| levelno := level; msg := message |}
              (l_handlers l) w) as [m1 Hm1].
  destruct (call_each _ (l_handlers l) w) as [[[]|e] w1]; simpl in *;
    [|by exists m1].
  destruct (l_propagate l); [|by exists m1].
  destruct (IH w1) as [m2 Hm2]. exists (m1 ++ m2).
  by rewrite Hm2, Hm1, fmap_app, app_assoc.
Qed.

(** The callback configures nothing: whatever its payload, and whether it
    returns or raises, [write] leaves loggers, handlers, the [Logging]
    object and the files as they are; all it may do is hand one record, the
    same for every handler, to handlers. *)
Theorem write_only_delivers (libdnf : libdnf_Logger) (self : LibdnfLoggerCB)
    (source : Z) (args : list PyVal) (w : World) :
  let w' := exec (write libdnf self source args) w in
  loggers w' = loggers w ∧
  handlers w' = handlers w ∧
  obj w' = obj w ∧
  files w' = files w ∧
  ∃ record hs, emitted w' = emitted w ++ ((λ h, (h, record)) <$> hs).
Proof.
  simpl.
  assert (∀ X (proj : World → X),
            (∀ f w0, proj (set_emitted f w0) = proj w0) →
            proj (exec (write libdnf self source args) w) = proj w) as Hkeeps.
  { intros X proj Hproj.
    assert (keeps proj (write libdnf self source args)) as Hk; [|apply Hk].
    unfold write, load_local, mapping_getitem.
    repeat first
      [ apply keeps_ret | apply keeps_raise
      | apply keeps_Logger_log; exact Hproj
      | apply keeps_bind; [|intros ?]
      | match goal with
        | |- keeps _ (match ?x with _ => _ end) => destruct x
        end ]. }
  split; [by apply Hkeeps|]. split; [by apply Hkeeps|].
  split; [by apply Hkeeps|]. split; [by apply Hkeeps|].
  unfold exec, write, load_local, mapping_getitem.
  assert (∃ record, ∃ hs : list nat,
            emitted w = emitted w ++ ((λ h, (h, record)) <$> hs)) as Hnone.
  { exists {| levelno := 0; msg := VInt 0 |}, []. by rewrite app_nil_r. }
  destruct args as [|a [|b [|c [|d [|e args]]]]]; simpl; try exact Hnone.
  - unfold mbind, M_bind, mret, M_ret. simpl.
    destruct a as [k|?]; simpl; [|exact Hnone].
    destruct (_LIBDNF_TO_DNF_LOGLEVEL_MAPPING libdnf !! k) as [l|]; simpl;
      [|exact Hnone].
    destruct (Logger_log_adds (_logger self) l b w) as [hs Hhs]. eauto.
  - unfold mbind, M_bind, mret, M_ret. simpl.
    destruct c as [k|?]; simpl; [|exact Hnone].
    destruct (_LIBDNF_TO_DNF_LOGLEVEL_MAPPING libdnf !! k) as [l|]; simpl;
      [|exact Hnone].
    destruct (Logger_log_adds (_logger self) l d w) as [hs Hhs]. eauto.
Qed.
